(** * aws-sih: the image handler's edge configuration and request pipeline

    A shallow embedding of
    - [source/constructs/lib/back-end/back-end-construct.ts]: the cache
      policy, the origin request policy, the viewer-request function that
      normalises the Accept header and the distribution's properties;
    - the request handler of [source/image-handler], whose interface types
      ([ImageHandlerEvent], [ImageRequestInfo],
      [ImageHandlerExecutionResult]) and whose tests are part of the
      sources, and whose body is modelled from the specification. *)

From Stdlib Require Import ZArith Lia Ascii String.
From stdpp Require Import base option strings list gmap fin_maps pretty.

Local Open Scope Z_scope.
Local Open Scope string_scope.

(** ** Strings, as JavaScript's [String.prototype] uses them *)

Module Str.

(** [startsWith pre s]: [s.startsWith(pre)]. *)
Fixpoint startsWith (pre s : string) : bool :=
  match pre, s with
  | EmptyString, _ => true
  | String a pre', String b s' => if Ascii.eqb a b then startsWith pre' s' else false
  | String _ _, EmptyString => false
  end.

(** [includes needle hay]: [hay.includes(needle)], a scan from the left for
    the first position where [needle] starts. *)
Fixpoint includes (needle hay : string) : bool :=
  if startsWith needle hay then true
  else match hay with
       | EmptyString => false
       | String _ hay' => includes needle hay'
       end.

(** [drop n s]: [s.slice(n)]. *)
Fixpoint drop (n : nat) (s : string) : string :=
  match n, s with
  | O, _ => s
  | S n', String _ s' => drop n' s'
  | S _, EmptyString => EmptyString
  end.

(** [endsWith suf s]: [s.endsWith(suf)]. *)
Definition endsWith (suf s : string) : bool :=
  String.eqb (drop (String.length s - String.length suf) s) suf
  && (String.length suf <=? String.length s)%nat.

(** [cut c s]: [s] around its first [c], when it has one. *)
Fixpoint cut (c : ascii) (s : string) : option (string * string) :=
  match s with
  | EmptyString => None
  | String a s' =>
      if Ascii.eqb a c then Some (EmptyString, s')
      else match cut c s' with
           | Some (l, r) => Some (String a l, r)
           | None => None
           end
  end.

(** [s.split(c)]. *)
Fixpoint split (c : ascii) (s : string) : list string :=
  match s with
  | EmptyString => [EmptyString]
  | String a s' =>
      if Ascii.eqb a c then EmptyString :: split c s'
      else match split c s' with
           | [] => [String a EmptyString]
           | w :: ws => String a w :: ws
           end
  end.

(** A JavaScript string is truthy when it is not empty. *)
Definition truthy (s : string) : bool :=
  match s with EmptyString => false | String _ _ => true end.

(** [needle] occurs in [hay]. *)
Definition Substring (needle hay : string) : Prop :=
  exists a b, hay = a +:+ needle +:+ b.

End Str.

(** ** The CDK model: [back-end-construct.ts] *)

Module BackEnd.

(** [Duration] of aws-cdk-lib, by the constructors the construct uses. *)
Inductive Duration :=
| Duration_seconds (n : Z)
| Duration_minutes (n : Z)
| Duration_days (n : Z).

Definition toSeconds (d : Duration) : Z :=
  match d with
  | Duration_seconds n => n
  | Duration_minutes n => 60 * n
  | Duration_days n => 86400 * n
  end.

(** [CacheHeaderBehavior.allowList] and [CacheQueryStringBehavior.allowList]:
    the behaviour keeps the names it was given. *)
Inductive AllowBehavior :=
| Behavior_none
| Behavior_all
| Behavior_allowList (names : list string).

Definition allows (b : AllowBehavior) (name : string) : bool :=
  match b with
  | Behavior_none => false
  | Behavior_all => true
  | Behavior_allowList names => bool_decide (name ∈ names)
  end.

(** [const queryStringParameters] (lines 43-49). *)
Definition queryStringParameters : list string :=
  ["signature"; "edits"; "headers"; "effort"; "outputFormat"].

Record CachePolicyProps := {
  cachePolicyName : string;
  defaultTtl : Duration;
  minTtl : Duration;
  maxTtl : Duration;
  enableAcceptEncodingGzip : bool;
  cp_headerBehavior : AllowBehavior;
  cp_queryStringBehavior : AllowBehavior;
}.

Record OriginRequestPolicyProps := {
  originRequestPolicyName : string;
  orp_headerBehavior : AllowBehavior;
  orp_queryStringBehavior : AllowBehavior;
}.

(** [new CachePolicy(this, "CachePolicy", {...})] (lines 168-176). *)
Definition cachePolicy (uuid : string) : CachePolicyProps := {|
  cachePolicyName := "ServerlessImageHandler-" +:+ uuid;
  defaultTtl := Duration_days 1;
  minTtl := Duration_seconds 1;
  maxTtl := Duration_days 365;
  enableAcceptEncodingGzip := false;
  cp_headerBehavior := Behavior_allowList ["origin"; "accept"];
  cp_queryStringBehavior := Behavior_allowList queryStringParameters;
|}.

(** [new OriginRequestPolicy(this, "OriginRequestPolicy", {...})]
    (lines 178-182). *)
Definition originRequestPolicy (uuid : string) : OriginRequestPolicyProps := {|
  originRequestPolicyName := "ServerlessImageHandler-" +:+ uuid;
  orp_headerBehavior := Behavior_allowList ["origin"; "accept"];
  orp_queryStringBehavior := Behavior_allowList queryStringParameters;
|}.

(** *** The viewer-request function (lines 203-213)

    A CloudFront Functions event carries the request's headers and query
    string as objects from a lower-case name to an entry with a [value]. *)
Record Entry := { value : string; multiValue : option (list string) }.

Record Request := {
  method : string;
  uri : string;
  querystring : gmap string Entry;
  headers : option (gmap string Entry);
}.

(** [function handler(event)]: the request it returns. *)
Definition handler (request : Request) : Request :=
  match headers request with
  | Some hs =>
      match hs !! "accept" with
      | Some accept =>
          if Str.truthy (value accept) then
            let acceptheadervalue := value accept in
            let resultingHeader :=
              if Str.includes "image/webp" acceptheadervalue
              then "image/webp" else "image/jpg" in
            {| method := method request;
               uri := uri request;
               querystring := querystring request;
               headers := Some (<["accept" := {| value := resultingHeader; multiValue := None |}]> hs) |}
          else request
      | None => request
      end
  | None => request
  end.

(** The Accept value of a request, when it has one. *)
Definition acceptOf (request : Request) : option string :=
  hs ← headers request; e ← hs !! "accept"; Some (value e).

(** *** The distribution (lines 192-245) *)

Inductive AllowedMethods := ALLOW_GET_HEAD | ALLOW_GET_HEAD_OPTIONS | ALLOW_ALL.

Definition methodsOf (a : AllowedMethods) : list string :=
  match a with
  | ALLOW_GET_HEAD => ["GET"; "HEAD"]
  | ALLOW_GET_HEAD_OPTIONS => ["GET"; "HEAD"; "OPTIONS"]
  | ALLOW_ALL => ["GET"; "HEAD"; "OPTIONS"; "PUT"; "PATCH"; "POST"; "DELETE"]
  end.

Inductive ViewerProtocolPolicy := HTTPS_ONLY | REDIRECT_TO_HTTPS | VPP_ALLOW_ALL.

Inductive Protocol := HTTP | HTTPS.

Inductive OriginSslPolicy := SSL_V3 | TLS_V1 | TLS_V1_1 | TLS_V1_2.

Inductive FunctionEventType := VIEWER_REQUEST | VIEWER_RESPONSE.

Record HttpOrigin := {
  domainName : string;
  originPath : string;
  originSslProtocols : list OriginSslPolicy;
}.

Record FunctionAssociation := {
  function : Request -> Request;
  eventType : FunctionEventType;
}.

Record BehaviorOptions := {
  origin : HttpOrigin;
  allowedMethods : AllowedMethods;
  viewerProtocolPolicy : ViewerProtocolPolicy;
  bo_originRequestPolicy : OriginRequestPolicyProps;
  bo_cachePolicy : CachePolicyProps;
  functionAssociations : list FunctionAssociation;
}.

Record ErrorResponse := { httpStatus : Z; ttl : Duration }.

Record DistributionProps := {
  comment : string;
  defaultBehavior : BehaviorOptions;
  domainNames : option (list string);
  certificate : option string;
  priceClass : string;
  enableLogging : bool;
  logBucket : string;
  logFilePrefix : string;
  errorResponses : list ErrorResponse;
}.

(** The fields of [BackEndProps] and of the construct's context that the
    distribution depends on. *)
Record BackEndProps := {
  uuid : string;
  cloudFrontPriceClass : string;
  props_certificate : option string;
  hostedZone : option string;
  customDomain : option string;
  logsBucket : string;
  restApiId : string;
  region : string;
  originShieldEnabled : option string;
  originShieldRegion : option string;
  env_AWS_REGION : string;
}.

Definition cloudFrontDistributionProps (props : BackEndProps) : DistributionProps := {|
  comment := "Image Handler Distribution for Serverless Image Handler";
  defaultBehavior := {|
    origin := {|
      domainName := restApiId props +:+ ".execute-api." +:+ region props +:+ ".amazonaws.com";
      originPath := "/image";
      originSslProtocols := [TLS_V1_1; TLS_V1_2] |};
    allowedMethods := ALLOW_GET_HEAD;
    viewerProtocolPolicy := HTTPS_ONLY;
    bo_originRequestPolicy := originRequestPolicy (uuid props);
    bo_cachePolicy := cachePolicy (uuid props);
    functionAssociations := [ {| function := handler; eventType := VIEWER_REQUEST |} ] |};
  domainNames :=
    match customDomain props with
    | Some d => if Str.truthy d then Some [d] else None
    | None => None
    end;
  certificate := props_certificate props;
  priceClass := cloudFrontPriceClass props;
  enableLogging := true;
  logBucket := logsBucket props;
  logFilePrefix := "api-cloudfront/";
  errorResponses := [
    {| httpStatus := 500; ttl := Duration_minutes 10 |};
    {| httpStatus := 501; ttl := Duration_minutes 10 |};
    {| httpStatus := 502; ttl := Duration_minutes 10 |};
    {| httpStatus := 503; ttl := Duration_minutes 10 |};
    {| httpStatus := 504; ttl := Duration_minutes 10 |} ];
|}.

(** The property overrides the constructor adds to the synthesized
    [CfnDistribution] (lines 284-319): they touch
    [DistributionConfig.ViewerCertificate], [DistributionConfig.Aliases] and
    [DistributionConfig.Origins.0.OriginShield] only. *)
Record ViewerCertificate := {
  AcmCertificateArn : option string;
  MinimumProtocolVersion : string;
  SslSupportMethod : string;
}.

Record OriginShield := { Enabled : bool; OriginShieldRegion : string }.

Record Distribution := {
  distributionProps : DistributionProps;
  override_ViewerCertificate : option ViewerCertificate;
  override_Aliases : option (list string);
  override_OriginShield : option OriginShield;
}.

Definition customDomainSet (props : BackEndProps) : option string :=
  match customDomain props with
  | Some d => if Str.truthy d then Some d else None
  | None => None
  end.

(** The distribution the [BackEnd] constructor leaves behind when it
    returns: the [Distribution] created from [cloudFrontDistributionProps]
    and the overrides of lines 284-319. For a custom domain without a
    certificate or without a hosted zone the constructor throws (lines 288
    and 297-304) and leaves none. *)
Definition distribution (props : BackEndProps) : Distribution := {|
  distributionProps := cloudFrontDistributionProps props;
  override_ViewerCertificate :=
    match customDomainSet props with
    | Some _ => Some {| AcmCertificateArn := props_certificate props;
                        MinimumProtocolVersion := "TLSv1.2_2021";
                        SslSupportMethod := "sni-only" |}
    | None => None
    end;
  override_Aliases :=
    match customDomainSet props with
    | Some d => Some [d]
    | None => None
    end;
  override_OriginShield :=
    if bool_decide (originShieldEnabled props = Some "Yes") then
      Some {| Enabled := true;
              OriginShieldRegion :=
                match originShieldRegion props with
                | Some r => if Str.truthy r then r else env_AWS_REGION props
                | None => env_AWS_REGION props
                end |}
    else None;
|}.

(** *** What the CDN does with these properties

    The distribution serves a viewer request when its method is one of the
    behaviour's allowed methods and its protocol passes the viewer protocol
    policy. *)
Definition protocolAdmitted (p : ViewerProtocolPolicy) (proto : Protocol) : bool :=
  match p, proto with
  | HTTPS_ONLY, HTTPS => true
  | HTTPS_ONLY, HTTP => false
  | REDIRECT_TO_HTTPS, HTTPS => true
  | REDIRECT_TO_HTTPS, HTTP => false
  | VPP_ALLOW_ALL, _ => true
  end.

Definition admits (d : Distribution) (m : string) (proto : Protocol) : bool :=
  let b := defaultBehavior (distributionProps d) in
  bool_decide (m ∈ methodsOf (allowedMethods b))
  && protocolAdmitted (viewerProtocolPolicy b) proto.

(** The TTL of an origin error response: the first entry of
    [errorResponses] for its status. *)
Fixpoint errorTtlIn (rs : list ErrorResponse) (status : Z) : option Duration :=
  match rs with
  | [] => None
  | r :: rs' => if Z.eqb (httpStatus r) status then Some (ttl r) else errorTtlIn rs' status
  end.

Definition errorTtl (d : Distribution) (status : Z) : option Duration :=
  errorTtlIn (errorResponses (distributionProps d)) status.

(** The cache key of a request under a cache policy: the path and the
    allow-listed headers and query strings. *)
Definition restrict (b : AllowBehavior) (m : gmap string Entry) : gmap string Entry :=
  filter (fun kv => allows b kv.1 = true) m.

Definition headersOf (r : Request) : gmap string Entry :=
  default ∅ (headers r).

Record CacheKey := {
  key_uri : string;
  key_headers : gmap string Entry;
  key_querystring : gmap string Entry;
}.

Definition cacheKey (cp : CachePolicyProps) (r : Request) : CacheKey := {|
  key_uri := uri r;
  key_headers := restrict (cp_headerBehavior cp) (headersOf r);
  key_querystring := restrict (cp_queryStringBehavior cp) (querystring r);
|}.

(** The request sent to the origin: what the cache policy puts in the key
    and what the origin request policy adds to it. *)
Definition either (a b : AllowBehavior) : AllowBehavior :=
  match a, b with
  | Behavior_all, _ | _, Behavior_all => Behavior_all
  | Behavior_none, x | x, Behavior_none => x
  | Behavior_allowList xs, Behavior_allowList ys => Behavior_allowList (xs ++ ys)
  end.

Record OriginRequest := {
  or_method : string;
  or_uri : string;
  or_headers : gmap string Entry;
  or_querystring : gmap string Entry;
}.

Definition originRequestOf (cp : CachePolicyProps) (orp : OriginRequestPolicyProps)
    (r : Request) : OriginRequest := {|
  or_method := method r;
  or_uri := uri r;
  or_headers := restrict (either (cp_headerBehavior cp) (orp_headerBehavior orp)) (headersOf r);
  or_querystring :=
    restrict (either (cp_queryStringBehavior cp) (orp_queryStringBehavior orp)) (querystring r);
|}.

(** The viewer-request functions of a behaviour run first, in order. *)
Definition runViewerRequest (b : BehaviorOptions) (r : Request) : Request :=
  fold_left (fun acc fa =>
               match eventType fa with
               | VIEWER_REQUEST => function fa acc
               | VIEWER_RESPONSE => acc
               end) (functionAssociations b) r.

Definition edgeCacheKey (d : Distribution) (r : Request) : CacheKey :=
  let b := defaultBehavior (distributionProps d) in
  cacheKey (bo_cachePolicy b) (runViewerRequest b r).

Definition edgeOriginRequest (d : Distribution) (r : Request) : OriginRequest :=
  let b := defaultBehavior (distributionProps d) in
  originRequestOf (bo_cachePolicy b) (bo_originRequestPolicy b) (runViewerRequest b r).

(** *** The rest of the constructor

    The entry the viewer-request function writes for an Accept entry
    (lines 204-211). *)
Definition normalizeEntry (e : Entry) : Entry :=
  if Str.truthy (value e) then
    {| value := if Str.includes "image/webp" (value e) then "image/webp" else "image/jpg";
       multiValue := None |}
  else e.

(** The fields of [SolutionConstructProps] ([../types], not among the
    sources) that the constructor reads, and its
    [createSourceBucketsResource] callback. *)
Record SolutionProps := {
  autoWebP : string;
  corsEnabled : string;
  corsOrigin : string;
  sourceBuckets : string;
  enableSignature : string;
  secretsManager : string;
  secretsManagerKey : string;
  enableDefaultFallbackImage : string;
  fallbackImageS3Bucket : string;
  fallbackImageS3KeyBucket : string;
  solutionVersion : string;
  solutionId : string;
  createSourceBucketsResource : option string -> list string;
}.

(** [Stack.of(this)], as far as [formatArn] reads it. *)
Record StackEnv := {
  stack_partition : string;
  stack_region : string;
  stack_account : string;
}.

(** [Stack.formatArn] with [ArnFormat.COLON_RESOURCE_NAME]. *)
Definition formatArn (stack : StackEnv) (service resource resourceName : string) : string :=
  "arn:" +:+ stack_partition stack +:+ ":" +:+ service +:+ ":" +:+ stack_region stack
  +:+ ":" +:+ stack_account stack +:+ ":" +:+ resource +:+ ":" +:+ resourceName.

Record PolicyStatement := {
  actions : list string;
  resources : list string;
}.

(** The ARN of the fallback image in the fourth statement (line 102). *)
Definition fallbackImageArn (sp : SolutionProps) : string :=
  "arn:aws:s3:::" +:+ fallbackImageS3Bucket sp +:+ "/" +:+ fallbackImageS3KeyBucket sp.

(** [imageHandlerLambdaFunctionRolePolicy] (lines 79-109). *)
Definition imageHandlerLambdaFunctionRolePolicy (stack : StackEnv) (sp : SolutionProps)
    : list PolicyStatement := [
  {| actions := ["logs:CreateLogGroup"; "logs:CreateLogStream"; "logs:PutLogEvents"];
     resources := [formatArn stack "logs" "log-group" "/aws/lambda/*"] |};
  {| actions := ["s3:GetObject"];
     resources := createSourceBucketsResource sp (Some "/*") |};
  {| actions := ["s3:ListBucket"];
     resources := createSourceBucketsResource sp None |};
  {| actions := ["s3:GetObject"];
     resources := [fallbackImageArn sp] |};
  {| actions := ["rekognition:DetectFaces"; "rekognition:DetectModerationLabels"];
     resources := ["*"] |} ].

(** The [environment] of the Lambda function (lines 123-138). *)
Definition environment (sp : SolutionProps) : list (string * string) := [
  ("AUTO_WEBP", autoWebP sp);
  ("CORS_ENABLED", corsEnabled sp);
  ("CORS_ORIGIN", corsOrigin sp);
  ("SOURCE_BUCKETS", sourceBuckets sp);
  ("REWRITE_MATCH_PATTERN", "");
  ("REWRITE_SUBSTITUTION", "");
  ("ENABLE_SIGNATURE", enableSignature sp);
  ("SECRETS_MANAGER", secretsManager sp);
  ("SECRET_KEY", secretsManagerKey sp);
  ("ENABLE_DEFAULT_FALLBACK_IMAGE", enableDefaultFallbackImage sp);
  ("DEFAULT_FALLBACK_IMAGE_BUCKET", fallbackImageS3Bucket sp);
  ("DEFAULT_FALLBACK_IMAGE_KEY", fallbackImageS3KeyBucket sp);
  ("SOLUTION_VERSION", solutionVersion sp);
  ("SOLUTION_ID", solutionId sp) ].

Fixpoint getEnv (vars : list (string * string)) (name : string) : option string :=
  match vars with
  | [] => None
  | (n, v) :: vars' => if String.eqb n name then Some v else getEnv vars' name
  end.

(** [logGroupName] of the function's log group (line 157). *)
Definition logGroupName (functionName : string) : string :=
  "/aws/lambda/" +:+ functionName.

(** How the access manager reads a policy: a resource pattern matches an
    ARN with [*] for any run of characters and [?] for any one character,
    and a request is granted when a statement names its action and one of
    the statement's patterns matches its resource. *)
Fixpoint glob (pattern s : string) : bool :=
  match pattern with
  | EmptyString => match s with EmptyString => true | String _ _ => false end
  | String c pattern' =>
      if Ascii.eqb c "*" then
        (fix star (s : string) : bool :=
           glob pattern' s ||
           match s with
           | EmptyString => false
           | String _ s' => star s'
           end) s
      else
        match s with
        | EmptyString => false
        | String d s' => (Ascii.eqb c "?" || Ascii.eqb c d) && glob pattern' s'
        end
  end.

Definition grants (st : PolicyStatement) (action resource : string) : bool :=
  bool_decide (action ∈ actions st) && existsb (fun p => glob p resource) (resources st).

Definition granted (policy : list PolicyStatement) (action resource : string) : bool :=
  existsb (fun st => grants st action resource) policy.

(** [imageHandlerLambdaFunctionRole] (lines 73-77 and 114): the policies
    attached to the role the function runs under, the caller's
    [props.secretsManagerPolicy] first and the inline policy next. *)
Definition imageHandlerLambdaFunctionRole (stack : StackEnv) (sp : SolutionProps)
    (secretsManagerPolicy : list PolicyStatement) : list (list PolicyStatement) :=
  [secretsManagerPolicy; imageHandlerLambdaFunctionRolePolicy stack sp].

(** What the role may do: what one of its policies grants. *)
Definition roleGranted (role : list (list PolicyStatement)) (action resource : string) : bool :=
  existsb (fun policy => granted policy action resource) role.

(** Two requests that agree on everything but query parameters outside
    [names]. *)
Definition agreeOutside (names : list string) (r1 r2 : Request) : Prop :=
  method r1 = method r2 /\ uri r1 = uri r2 /\ headers r1 = headers r2 /\
  forall k, k ∈ names -> querystring r1 !! k = querystring r2 !! k.

End BackEnd.

(** ** Buffers and their base64 text: [Buffer.prototype.toString("base64")] *)

Module Base64.

Definition Buffer := list Byte.byte.

(** [Buffer.from(s)] for a string of one-byte characters. *)
Definition fromString (s : string) : Buffer := list_byte_of_string s.

Definition alphabet : string :=
  "ABCDEFGHIJKLMNOPQRSTUVWXYZabcdefghijklmnopqrstuvwxyz0123456789+/".

(** The character of a 6-bit digit. *)
Definition digit (n : N) : ascii :=
  match String.get (N.to_nat n) alphabet with
  | Some c => c
  | None => "="%char
  end.

Definition sextet (word : N) (i : N) : ascii :=
  digit (N.land (N.shiftr word (6 * i)) 63).

(** Three bytes give four digits; a tail of one or two bytes is padded. *)
Fixpoint encode (bs : Buffer) : string :=
  match bs with
  | [] => ""
  | [a] =>
      let w := N.shiftl (Byte.to_N a) 16 in
      String (sextet w 3) (String (sextet w 2) "==")
  | [a; b] =>
      let w := N.lor (N.shiftl (Byte.to_N a) 16) (N.shiftl (Byte.to_N b) 8) in
      String (sextet w 3) (String (sextet w 2) (String (sextet w 1) "="))
  | a :: b :: c :: rest =>
      let w := N.lor (N.lor (N.shiftl (Byte.to_N a) 16) (N.shiftl (Byte.to_N b) 8))
                     (Byte.to_N c) in
      String (sextet w 3) (String (sextet w 2) (String (sextet w 1)
        (String (sextet w 0) (encode rest))))
  end.

End Base64.

(** ** [JSON.stringify] on the flat objects the handler serialises *)

Module Json.

Inductive value :=
| Null
| Num (n : Z)
| Text (s : string).

Definition hexDigit (n : N) : ascii :=
  match String.get (N.to_nat n) "0123456789abcdef" with
  | Some c => c
  | None => "0"%char
  end.

Definition dquote : ascii := ascii_of_N 34.

(** One character inside a JSON string literal. *)
Definition escapeChar (c : ascii) : string :=
  let n := N_of_ascii c in
  if N.eqb n 34 then String "\" (String dquote "")
  else if N.eqb n 92 then "\\"
  else if N.eqb n 8 then "\b"
  else if N.eqb n 9 then "\t"
  else if N.eqb n 10 then "\n"
  else if N.eqb n 12 then "\f"
  else if N.eqb n 13 then "\r"
  else if N.ltb n 32 then
    "\u00" +:+ String (hexDigit (N.shiftr n 4)) (String (hexDigit (N.land n 15)) "")
  else String c "".

Fixpoint escape (s : string) : string :=
  match s with
  | EmptyString => ""
  | String c s' => escapeChar c +:+ escape s'
  end.

Definition quote (s : string) : string :=
  String dquote (escape s) +:+ String dquote "".

Definition stringifyValue (v : value) : string :=
  match v with
  | Null => "null"
  | Num n => pretty n
  | Text s => quote s
  end.

Fixpoint stringifyFields (fs : list (string * value)) : string :=
  match fs with
  | [] => ""
  | [(k, v)] => quote k +:+ ":" +:+ stringifyValue v
  | (k, v) :: fs' => quote k +:+ ":" +:+ stringifyValue v +:+ "," +:+ stringifyFields fs'
  end.

(** [JSON.stringify] of an object whose own enumerable properties are [fs],
    in insertion order. *)
Definition stringify (fs : list (string * value)) : string :=
  "{" +:+ stringifyFields fs +:+ "}".

End Json.

(** ** The image handler: [source/image-handler] *)

Module ImageHandler.

Import Base64.

(** Modelled from the spec: [StatusCodes] of [lib/enums.ts], which is not
    among the sources; the members the tests name, with the numbers the
    specification gives them. *)
Inductive StatusCodes := OK | BAD_REQUEST | NOT_FOUND | INTERNAL_SERVER_ERROR.

Definition statusNumber (s : StatusCodes) : Z :=
  match s with
  | OK => 200
  | BAD_REQUEST => 400
  | NOT_FOUND => 404
  | INTERNAL_SERVER_ERROR => 500
  end.

(** Modelled from the spec: [RequestTypes] of [lib/enums.ts]. *)
Inductive RequestTypes := Default | Thumbor | Custom.

(** A property that holds a string, [null] or nothing. *)
Inductive jsval := Undefined | JNull | Str (s : string).

#[export] Instance jsval_eq_dec : EqDecision jsval.
Proof. solve_decision. Defined.

#[export] Instance StatusCodes_eq_dec : EqDecision StatusCodes.
Proof. solve_decision. Defined.

(** Modelled from the spec: what the handler can catch. [ImageHandlerError]
    of [lib] carries [status], [code] and [message] as its own properties,
    in that order (test lines 155-159); any other exception is an [Error]
    with a message and no status. *)
Inductive Thrown :=
| ImageHandlerError (status : StatusCodes) (code message : jsval)
| Error (message : string).

Definition codeOf (e : Thrown) : jsval :=
  match e with
  | ImageHandlerError _ c _ => c
  | Error _ => Undefined
  end.

Definition messageOf (e : Thrown) : jsval :=
  match e with
  | ImageHandlerError _ _ m => m
  | Error m => Str m
  end.

Definition statusOf (e : Thrown) : option StatusCodes :=
  match e with
  | ImageHandlerError s _ _ => Some s
  | Error _ => None
  end.

(** Modelled from the spec: [Headers] of [lib/types.ts], an object from a
    header name to its value; the handler stores strings, [true] and
    [undefined] in it (test lines 32-40). *)
Inductive HeaderValue := hv_undefined | hv_bool (b : bool) | hv_string (s : string).

Definition ofOption (o : option string) : HeaderValue :=
  match o with
  | Some s => hv_string s
  | None => hv_undefined
  end.

(** Modelled from the spec: [ImageEdits] of [lib/types.ts], the edits in
    the order of the object's keys. [overlayWith] names a second stored
    image; every other edit goes to the image library by name. *)
Inductive Edit :=
| overlayWith (bucket key : string)
| sharpEdit (name args : string).

(** The interface types of [lib/interfaces.ts]. *)
Record QueryStringParameters := {
  qs_signature : option string;
  qs_edits : option string;
  qs_headers : option string;
  qs_outputFormat : option string;
  qs_effort : option Z;
}.

Record RequestContext := { elb : option unit }.

Record ImageHandlerEvent := {
  path : option string;
  queryStringParameters : option QueryStringParameters;
  requestContext : option RequestContext;
  ev_headers : option (gmap string HeaderValue);
}.

Record DefaultImageRequest := {
  dr_bucket : option string;
  dr_key : string;
}.

Record ImageRequestInfo := {
  requestType : RequestTypes;
  bucket : string;
  key : string;
  edits : option (list Edit);
  originalImage : Buffer;
  headers : option (gmap string HeaderValue);
  contentType : option string;
  expires : option string;
  lastModified : option string;
  cacheControl : option string;
  outputFormat : option string;
  effort : option Z;
}.

Record ImageHandlerExecutionResult := {
  statusCode : StatusCodes;
  isBase64Encoded : bool;
  res_headers : gmap string HeaderValue;
  body : string;
}.

(** The object [getObject] resolves to. *)
Record S3Object := {
  Body : Buffer;
  ContentType : option string;
  Expires : option string;
  LastModified : option string;
  CacheControl : option string;
}.

(** [process.env]. *)
Record Env := {
  SOURCE_BUCKETS : option string;
  ENABLE_DEFAULT_FALLBACK_IMAGE : option string;
  DEFAULT_FALLBACK_IMAGE_BUCKET : option string;
  DEFAULT_FALLBACK_IMAGE_KEY : option string;
  CORS_ENABLED : option string;
  CORS_ORIGIN : option string;
}.

(** *** Computations that call object storage and may throw

    A computation reads the log of the [getObject] calls made so far and
    returns what it threw or produced, with the log extended. *)
Definition Call := (string * string)%type.

Definition M (A : Type) : Type := list Call -> (Thrown + A) * list Call.

Definition ret {A} (a : A) : M A := fun log => (inr a, log).

Definition throw {A} (e : Thrown) : M A := fun log => (inl e, log).

Definition bind {A B} (m : M A) (k : A -> M B) : M B :=
  fun log =>
    match m log with
    | (inl e, log') => (inl e, log')
    | (inr a, log') => k a log'
    end.

Definition tryCatch {A} (m : M A) (h : Thrown -> M A) : M A :=
  fun log =>
    match m log with
    | (inl e, log') => h e log'
    | (inr a, log') => (inr a, log')
    end.

Definition lift {A} (r : Thrown + A) : M A :=
  match r with
  | inl e => throw e
  | inr a => ret a
  end.

#[export] Instance M_ret : MRet M := @ret.

#[export] Instance M_bind : MBind M := fun A B k m => bind m k.

(** A computation that does not read the log: started after earlier calls
    it returns what it returns on its own and adds the same calls. *)
Definition oblivious {A} (m : M A) : Prop :=
  forall log, m log = ((m []).1, (log ++ (m []).2)%list).

(** *** [ImageRequest.decodeRequest]

    Modelled from the spec: [image-request.ts] is not among the sources. The
    path holds the bucket and the key unencoded, as a bucket/key path or as
    the image's S3 URL (README, Usage); [decode-request.spec.ts] and the
    specification fix the error for a path that is missing or cannot be
    read. *)
Definition CannotReadPath : Thrown :=
  ImageHandlerError BAD_REQUEST (Str "DecodeRequest::CannotReadPath")
    (Str "The URL path you provided could not be read. Please ensure that it is properly formed according to the solution documentation.").

Definition stripLeadingSlash (p : string) : string :=
  if Str.startsWith "/" p then Str.drop 1 p else p.

Definition stripScheme (p : string) : string :=
  if Str.startsWith "https://" p then Str.drop 8 p
  else if Str.startsWith "http://" p then Str.drop 7 p
  else p.

(** The host of an S3 URL: [s3.amazonaws.com], [s3.us-east-1.amazonaws.com],
    [s3-eu-west-1.amazonaws.com]. *)
Definition isS3Host (h : string) : bool :=
  Str.startsWith "s3" h && Str.endsWith ".amazonaws.com" h.

Definition bucketAndKey (s : string) : option (string * string) :=
  match Str.cut "/" s with
  | Some (b, k) => if Str.truthy b && Str.truthy k then Some (b, k) else None
  | None => None
  end.

Definition parsePath (p : string) : option (string * string) :=
  let s := stripScheme (stripLeadingSlash p) in
  match Str.cut "/" s with
  | Some (first, rest) => if isS3Host first then bucketAndKey rest else bucketAndKey s
  | None => None
  end.

(** The paths the README lists: an optional leading slash, an optional
    scheme, an optional S3 host, then the bucket, a slash and the key. A
    bucket name is made of lower-case letters, digits, dots and hyphens. *)
Definition bucketChar (c : ascii) : bool :=
  let n := N_of_ascii c in
  (N.leb 97 n && N.leb n 122) || (N.leb 48 n && N.leb n 57)
  || N.eqb n 46 || N.eqb n 45.

Fixpoint allChars (f : ascii -> bool) (s : string) : bool :=
  match s with
  | EmptyString => true
  | String c s' => f c && allChars f s'
  end.

(** The name of an S3 host, whatever lies between [s3] and
    [.amazonaws.com]; a string without a slash. *)
Definition S3HostName (h : string) : Prop :=
  exists m, h = "s3" +:+ m +:+ ".amazonaws.com".

Definition NoSlash (s : string) : Prop :=
  forall a b, s <> a +:+ String "/" b.

Definition Lead (l : string) : Prop := l = "" \/ l = "/".

Definition Scheme (s : string) : Prop := s = "" \/ s = "https://" \/ s = "http://".

(** A bucket name: not empty, of bucket characters, and not the name of an
    S3 host. *)
Definition BucketName (b : string) : Prop :=
  b <> "" /\ allChars bucketChar b = true /\ ~ S3HostName b.

Definition HostName (h : string) : Prop :=
  S3HostName h /\ allChars bucketChar h = true.

(** A path that is a well-formed S3 URL or bucket/key path for the bucket
    [b] and the key [k]. *)
Definition WellFormedPath (p b k : string) : Prop :=
  exists lead scheme host,
    p = lead +:+ scheme +:+ host +:+ b +:+ "/" +:+ k /\
    Lead lead /\ Scheme scheme /\
    (host = "" \/ exists h, host = h +:+ "/" /\ HostName h) /\
    BucketName b /\ k <> "".

(** A path that can be read as a reference to the bucket [b] and the key
    [k]: after an optional slash, scheme and S3 host come a bucket without
    slash, a slash and a key, neither of them empty. *)
Definition Reference (p b k : string) : Prop :=
  exists lead scheme host,
    p = lead +:+ scheme +:+ host +:+ b +:+ "/" +:+ k /\
    Lead lead /\ Scheme scheme /\
    (host = "" \/ exists h, host = h +:+ "/" /\ S3HostName h /\ NoSlash h) /\
    b <> "" /\ NoSlash b /\ k <> "".

Definition decodeRequest (event : ImageHandlerEvent) : Thrown + DefaultImageRequest :=
  match path event with
  | Some p =>
      match parsePath p with
      | Some (b, k) => inr {| dr_bucket := Some b; dr_key := k |}
      | None => inl CannotReadPath
      end
  | None => inl CannotReadPath
  end.

(** *** The handler

    Modelled from the spec: [index.ts], [image-request.ts] and
    [image-handler.ts] are not among the sources. The handler is the linear
    pipeline of the specification (decode the request, fetch the source
    image, apply the edits, answer in base64) with the fallback image and
    the error responses that [test/index.spec.ts] pins down. Object storage,
    the image library and [JSON.parse] are the collaborators it is given. *)
Record Sharp := {
  dimensions : Buffer -> Thrown + (Z * Z);
  composite : Buffer -> Buffer -> Thrown + Buffer;
  applyEdit : string -> string -> Buffer -> Thrown + Buffer;
}.

Definition overlayMessage : string :=
  "Image to overlay must have same dimensions or smaller".

Definition defaultCacheControl : string := "max-age=31536000,public".

Definition isYes (o : option string) : bool := bool_decide (o = Some "Yes").

Definition isEmpty (o : option string) : bool :=
  match o with
  | Some s => negb (Str.truthy s)
  | None => true
  end.

Definition isAlb (event : ImageHandlerEvent) : bool :=
  match requestContext event with
  | Some rc => match elb rc with Some _ => true | None => false end
  | None => false
  end.

Section Handler.

Variable s3 : string -> string -> Thrown + S3Object.
Variable sharp : Sharp.
Variable parseEdits : string -> Thrown + list Edit.
Variable parseHeaders : string -> Thrown + gmap string HeaderValue.
Variable env : Env.

(** [s3Client.getObject({ Bucket, Key }).promise()]: the call is logged
    whether it resolves or rejects. *)
Definition getObject (b k : string) : M S3Object :=
  fun log => (s3 b k, (log ++ [(b, k)])%list).

Definition sourceBuckets : list string :=
  match SOURCE_BUCKETS env with
  | Some s => Str.split "," s
  | None => []
  end.

(** The bucket and key of a request: those of [decodeRequest], or, for a
    path that is a bare key, the first source bucket and that key (test
    lines 25 and 45-48). *)
Definition locate (event : ImageHandlerEvent) : Thrown + (RequestTypes * string * string) :=
  match decodeRequest event with
  | inr r => inr (Default, default "" (dr_bucket r), dr_key r)
  | inl e =>
      match path event, sourceBuckets with
      | Some p, b :: _ =>
          let k := stripLeadingSlash p in
          if Str.truthy k && Str.truthy b then inr (Thumbor, b, k) else inl e
      | _, _ => inl e
      end
  end.

(** The source image; a failure of object storage is reported as
    [NOT_FOUND] (test lines 226 and 241), and a missing key by a message
    that names the key (test lines 140 and 158). *)
Definition sourceError (k : string) (e : Thrown) : Thrown :=
  ImageHandlerError NOT_FOUND (codeOf e)
    (if bool_decide (codeOf e = Str "NoSuchKey")
     then Str ("The image " +:+ k +:+
               " does not exist or the request may not be base64 encoded properly.")
     else messageOf e).

Definition getOriginalImage (b k : string) : M S3Object :=
  tryCatch (getObject b k) (fun e => throw (sourceError k e)).

Definition parseOptional {A} (parse : string -> Thrown + A) (o : option string)
    : Thrown + option A :=
  match o with
  | Some s => match parse s with
              | inr a => inr (Some a)
              | inl e => inl e
              end
  | None => inr None
  end.

(** What a request asks for: where the image is, the edits and the custom
    headers of its query string. *)
Record Asked := {
  a_type : RequestTypes;
  a_bucket : string;
  a_key : string;
  a_edits : option (list Edit);
  a_headers : option (gmap string HeaderValue);
}.

Definition readRequest (event : ImageHandlerEvent) : Thrown + Asked :=
  let qs := queryStringParameters event in
  match locate event with
  | inl e => inl e
  | inr (type, b, k) =>
      match parseOptional parseEdits (qs ≫= qs_edits) with
      | inl e => inl e
      | inr es =>
          match parseOptional parseHeaders (qs ≫= qs_headers) with
          | inl e => inl e
          | inr hs =>
              inr {| a_type := type; a_bucket := b; a_key := k;
                     a_edits := es; a_headers := hs |}
          end
      end
  end.

(** The request information [setup] builds from what was asked and the
    stored object. *)
Definition infoOf (event : ImageHandlerEvent) (a : Asked) (o : S3Object) : ImageRequestInfo :=
  {| requestType := a_type a;
     bucket := a_bucket a;
     key := a_key a;
     edits := a_edits a;
     originalImage := Body o;
     headers := a_headers a;
     contentType := ContentType o;
     expires := Expires o;
     lastModified := LastModified o;
     cacheControl := Some (default defaultCacheControl (CacheControl o));
     outputFormat := queryStringParameters event ≫= qs_outputFormat;
     effort := queryStringParameters event ≫= qs_effort |}.

(** The edits a request asks for, when its parameters can be read. *)
Definition askedEdits (event : ImageHandlerEvent) : list Edit :=
  match readRequest event with
  | inr a => default [] (a_edits a)
  | inl _ => []
  end.

(** [ImageRequest.setup]: the source image is fetched for every request
    whose path gives a bucket and a key, as the specification has it; the
    edits and the custom headers are read next. *)
Definition setup (event : ImageHandlerEvent) : M ImageRequestInfo :=
  '(_, b, k) ← lift (locate event);
  o ← getOriginalImage b k;
  a ← lift (readRequest event);
  mret (infoOf event a o).

(** One edit on the image so far. An overlay fetches its image and is
    refused when it is wider or higher than the base image. *)
Definition applyOne (e : Edit) (image : Buffer) : M Buffer :=
  match e with
  | overlayWith b k =>
      o ← getObject b k;
      '(bw, bh) ← lift (dimensions sharp image);
      '(ow, oh) ← lift (dimensions sharp (Body o));
      if Z.ltb bw ow || Z.ltb bh oh then throw (Error overlayMessage)
      else lift (composite sharp image (Body o))
  | sharpEdit name args => lift (applyEdit sharp name args image)
  end.

Fixpoint applyEdits (es : list Edit) (image : Buffer) : M Buffer :=
  match es with
  | [] => mret image
  | e :: es' => image' ← applyOne e image; applyEdits es' image'
  end.

Definition isOverlay (e : Edit) : bool :=
  match e with
  | overlayWith _ _ => true
  | sharpEdit _ _ => false
  end.

(** [ImageHandler.process], before its result is base64-encoded. *)
Definition process (info : ImageRequestInfo) : M Buffer :=
  applyEdits (default [] (edits info)) (originalImage info).

Definition getResponseHeaders (isError alb : bool) : gmap string HeaderValue :=
  let h := {[ "Access-Control-Allow-Methods" := hv_string "GET";
              "Access-Control-Allow-Headers" := hv_string "Content-Type, Authorization" ]} in
  let h := if alb then h else <["Access-Control-Allow-Credentials" := hv_bool true]> h in
  let h := if isYes (CORS_ENABLED env)
           then <["Access-Control-Allow-Origin" := ofOption (CORS_ORIGIN env)]> h else h in
  if isError then <["Content-Type" := hv_string "application/json"]> h else h.

Definition field (name : string) (v : jsval) : list (string * Json.value) :=
  match v with
  | Undefined => []
  | JNull => [(name, Json.Null)]
  | Str s => [(name, Json.Text s)]
  end.

(** The status and body of an error response. *)
Definition getErrorResponse (error : Thrown) : StatusCodes * string :=
  match error with
  | ImageHandlerError status code message =>
      (status,
       Json.stringify ([("status", Json.Num (statusNumber status))]
                       ++ field "code" code ++ field "message" message)%list)
  | Error m =>
      if String.eqb m overlayMessage then
        (BAD_REQUEST,
         Json.stringify [("message", Json.Text overlayMessage);
                         ("code", Json.Text "BadRequest");
                         ("status", Json.Num (statusNumber BAD_REQUEST))])
      else
        (INTERNAL_SERVER_ERROR,
         Json.stringify [("message", Json.Text "Internal error. Please contact the system administrator.");
                         ("code", Json.Text "InternalError");
                         ("status", Json.Num (statusNumber INTERNAL_SERVER_ERROR))])
  end.

Definition errorResult (alb : bool) (error : Thrown) : ImageHandlerExecutionResult :=
  let '(status, b) := getErrorResponse error in
  {| statusCode := status;
     isBase64Encoded := false;
     res_headers := getResponseHeaders true alb;
     body := b |}.

(** The headers of an image response: the handler's own, as the
    specification and the tests state them, and the custom headers of the
    request beside them (test lines 60-83). *)
Definition successHeaders (alb : bool) (info : ImageRequestInfo) : gmap string HeaderValue :=
  let h := getResponseHeaders false alb in
  let h := <["Content-Type" := ofOption (contentType info)]> h in
  let h := <["Expires" := ofOption (expires info)]> h in
  let h := <["Last-Modified" := ofOption (lastModified info)]> h in
  let h := <["Cache-Control" := ofOption (cacheControl info)]> h in
  match headers info with
  | Some custom => h ∪ custom
  | None => h
  end.

Definition fallbackHeaders (alb : bool) (o : S3Object) : gmap string HeaderValue :=
  let h := getResponseHeaders false alb in
  let h := <["Content-Type" := ofOption (ContentType o)]> h in
  let h := <["Last-Modified" := ofOption (LastModified o)]> h in
  <["Cache-Control" := hv_string defaultCacheControl]> h.

(** The fallback image is configured when it is enabled and its bucket and
    key are not empty. *)
Definition fallbackConfigured : bool :=
  isYes (ENABLE_DEFAULT_FALLBACK_IMAGE env)
  && negb (isEmpty (DEFAULT_FALLBACK_IMAGE_BUCKET env))
  && negb (isEmpty (DEFAULT_FALLBACK_IMAGE_KEY env)).

Definition fallbackObject : Thrown + S3Object :=
  s3 (default "" (DEFAULT_FALLBACK_IMAGE_BUCKET env))
     (default "" (DEFAULT_FALLBACK_IMAGE_KEY env)).

(** The fallback image is served when it is configured and object storage
    returns it. *)
Definition fallbackServed : bool :=
  fallbackConfigured && match fallbackObject with inr _ => true | inl _ => false end.

(** The request up to the transformed bytes. *)
Definition transform (event : ImageHandlerEvent) : M (ImageRequestInfo * Buffer) :=
  info ← setup event;
  image ← process info;
  mret (info, image).

Definition fallbackResult (alb : bool) (status : StatusCodes) (o : S3Object)
    : ImageHandlerExecutionResult :=
  {| statusCode := status;
     isBase64Encoded := true;
     res_headers := fallbackHeaders alb o;
     body := encode (Body o) |}.

Definition successResult (alb : bool) (info : ImageRequestInfo) (image : Buffer)
    : ImageHandlerExecutionResult :=
  {| statusCode := OK;
     isBase64Encoded := true;
     res_headers := successHeaders alb info;
     body := encode image |}.

(** What the handler does with an error it caught. An error that carries
    a status is answered with the fallback image and that status when the
    fallback image is configured and can be fetched (test lines 212-310);
    every other error is answered with its error response, as the error
    taxonomy of the specification has it (test lines 170-210 and 432-482). *)
Definition recover (alb : bool) (error : Thrown) : M ImageHandlerExecutionResult :=
  match statusOf error with
  | Some status =>
      if fallbackConfigured then
        tryCatch
          (o ← getObject (default "" (DEFAULT_FALLBACK_IMAGE_BUCKET env))
                         (default "" (DEFAULT_FALLBACK_IMAGE_KEY env));
           mret (fallbackResult alb status o))
          (fun _ => mret (errorResult alb error))
      else mret (errorResult alb error)
  | None => mret (errorResult alb error)
  end.

Definition handlerM (event : ImageHandlerEvent) : M ImageHandlerExecutionResult :=
  let alb := isAlb event in
  tryCatch
    ('(info, image) ← transform event;
     mret (successResult alb info image))
    (recover alb).

(** [handler(event)]: the result and the [getObject] calls it made. The
    handler catches whatever is thrown, so a result is always there. *)
Definition handler (event : ImageHandlerEvent) : ImageHandlerExecutionResult * list Call :=
  match handlerM event [] with
  | (inr r, log) => (r, log)
  | (inl e, log) => (errorResult (isAlb event) e, log)
  end.

End Handler.

End ImageHandler.

(** ** The scenarios of [test/index.spec.ts] and [decode-request.spec.ts] *)

Module Scenarios.

Import Base64 ImageHandler.

Definition mockImage : Buffer := fromString "SampleImageContent
".

Definition mockFallbackImage : Buffer := fromString "SampleFallbackImageContent
".

Definition object (b : Buffer) (type : option string) : S3Object :=
  {| Body := b; ContentType := type; Expires := None; LastModified := None;
     CacheControl := None |}.

Definition NoSuchKey : Thrown :=
  ImageHandlerError NOT_FOUND (Str "NoSuchKey") (Str "NoSuchKey error happened.").

Definition UnknownError : Thrown :=
  ImageHandlerError INTERNAL_SERVER_ERROR (Str "UnknownError") JNull.

(** A store that holds one image, [source-bucket/test.jpg]. *)
Definition s3_image : string -> string -> Thrown + S3Object :=
  fun b k =>
    if String.eqb b "source-bucket" && String.eqb k "test.jpg"
    then inr (object mockImage (Some "image/jpeg"))
    else inl NoSuchKey.

(** A store without the image. *)
Definition s3_missing : string -> string -> Thrown + S3Object :=
  fun _ _ => inl NoSuchKey.

(** A store that fails on the source bucket and holds the fallback image. *)
Definition s3_fallback : string -> string -> Thrown + S3Object :=
  fun b k =>
    if String.eqb b "fallback-image-bucket" && String.eqb k "fallback-image.png"
    then inr (object mockFallbackImage (Some "image/png"))
    else inl UnknownError.

(** The store of the overlay test: the 5x5 image under the base key and the
    10x10 image under every other key. An image is its width and height. *)
Definition image (w h : Byte.byte) : Buffer := [w; h].

Definition s3_overlay : string -> string -> Thrown + S3Object :=
  fun _ k =>
    if String.eqb k "transparent-10x10.png"
    then inr (object (image Byte.x05 Byte.x05) None)
    else inr (object (image Byte.x0a Byte.x0a) None).

(** The same store with the fallback image in its bucket. *)
Definition s3_overlay_fallback : string -> string -> Thrown + S3Object :=
  fun b k =>
    if String.eqb b "fallback-image-bucket"
    then inr (object mockFallbackImage (Some "image/png"))
    else s3_overlay b k.

(** An image library for these images: it knows [grayscale] and no other
    edit, and an overlay leaves the base image as it is. *)
Definition sharp : Sharp := {|
  dimensions := fun b =>
    match b with
    | [w; h] => inr (Z.of_N (Byte.to_N w), Z.of_N (Byte.to_N h))
    | _ => inl (Error "Input buffer contains unsupported image format")
    end;
  composite := fun base _ => inr base;
  applyEdit := fun name _ b =>
    if String.eqb name "grayscale" then inr b
    else inl (Error "image[edit] is not a function");
|}.

(** The edits and headers of the tests, by the key they hold. *)
Definition parseEdits (s : string) : Thrown + list Edit :=
  if Str.includes "overlayWith" s
  then inr [overlayWith "source-bucket" "transparent-5x5.png"]
  else if Str.includes "wrongFilter" s then inr [sharpEdit "wrongFilter" "true"]
  else if Str.includes "grayscale" s then inr [sharpEdit "grayscale" "true"]
  else inr [].

Definition parseHeaders (s : string) : Thrown + gmap string HeaderValue :=
  if Str.includes "Content-Type" s
  then inr {[ "Content-Type" := hv_string "text/plain" ]}
  else if Str.includes "Custom-Header" s
  then inr {[ "Custom-Header" := hv_string "CustomValue" ]}
  else inr ∅.

Definition env0 : Env := {|
  SOURCE_BUCKETS := Some "source-bucket";
  ENABLE_DEFAULT_FALLBACK_IMAGE := None;
  DEFAULT_FALLBACK_IMAGE_BUCKET := None;
  DEFAULT_FALLBACK_IMAGE_KEY := None;
  CORS_ENABLED := None;
  CORS_ORIGIN := None;
|}.

(** The environment after the fallback test has set it up. *)
Definition env_fallback : Env := {|
  SOURCE_BUCKETS := Some "source-bucket";
  ENABLE_DEFAULT_FALLBACK_IMAGE := Some "Yes";
  DEFAULT_FALLBACK_IMAGE_BUCKET := Some "fallback-image-bucket";
  DEFAULT_FALLBACK_IMAGE_KEY := Some "fallback-image.png";
  CORS_ENABLED := Some "Yes";
  CORS_ORIGIN := Some "*";
|}.

Definition env_noKey : Env := {|
  SOURCE_BUCKETS := Some "source-bucket";
  ENABLE_DEFAULT_FALLBACK_IMAGE := Some "Yes";
  DEFAULT_FALLBACK_IMAGE_BUCKET := Some "fallback-image-bucket";
  DEFAULT_FALLBACK_IMAGE_KEY := Some "";
  CORS_ENABLED := Some "Yes";
  CORS_ORIGIN := Some "*";
|}.

Definition env_noBucket : Env := {|
  SOURCE_BUCKETS := Some "source-bucket";
  ENABLE_DEFAULT_FALLBACK_IMAGE := Some "Yes";
  DEFAULT_FALLBACK_IMAGE_BUCKET := Some "";
  DEFAULT_FALLBACK_IMAGE_KEY := Some "";
  CORS_ENABLED := Some "Yes";
  CORS_ORIGIN := Some "*";
|}.

Definition query (e h : option string) : option QueryStringParameters :=
  Some {| qs_signature := None; qs_edits := e; qs_headers := h;
          qs_outputFormat := None; qs_effort := None |}.

Definition event (p : string) (q : option QueryStringParameters) : ImageHandlerEvent :=
  {| path := Some p; queryStringParameters := q; requestContext := None;
     ev_headers := None |}.

Definition albEvent (p : string) : ImageHandlerEvent :=
  {| path := Some p; queryStringParameters := None;
     requestContext := Some {| elb := Some () |}; ev_headers := None |}.

Definition noPath : ImageHandlerEvent :=
  {| path := None; queryStringParameters := None; requestContext := None;
     ev_headers := None |}.

Definition run (s3 : string -> string -> Thrown + S3Object) (env : Env)
    (e : ImageHandlerEvent) : ImageHandlerExecutionResult * list Call :=
  handler s3 sharp parseEdits parseHeaders env e.

(** The headers and the body the tests expect. *)
Definition baseHeaders : list (string * HeaderValue) :=
  [("Access-Control-Allow-Methods", hv_string "GET");
   ("Access-Control-Allow-Headers", hv_string "Content-Type, Authorization")].

Definition credentials : list (string * HeaderValue) :=
  [("Access-Control-Allow-Credentials", hv_bool true)].

Definition imageHeaders (type : string) : list (string * HeaderValue) :=
  [("Content-Type", hv_string type);
   ("Expires", hv_undefined);
   ("Cache-Control", hv_string "max-age=31536000,public");
   ("Last-Modified", hv_undefined)].

Definition notFoundBody : string :=
  Json.stringify
    [("status", Json.Num 404%Z); ("code", Json.Text "NoSuchKey");
     ("message", Json.Text "The image test.jpg does not exist or the request may not be base64 encoded properly.")].

(** A stack and the solution's properties for the function's role. *)
Definition stack : BackEnd.StackEnv := {|
  BackEnd.stack_partition := "aws";
  BackEnd.stack_region := "eu-west-1";
  BackEnd.stack_account := "123456789012";
|}.

Definition solution : BackEnd.SolutionProps := {|
  BackEnd.autoWebP := "No";
  BackEnd.corsEnabled := "Yes";
  BackEnd.corsOrigin := "*";
  BackEnd.sourceBuckets := "source-bucket";
  BackEnd.enableSignature := "No";
  BackEnd.secretsManager := "";
  BackEnd.secretsManagerKey := "";
  BackEnd.enableDefaultFallbackImage := "Yes";
  BackEnd.fallbackImageS3Bucket := "fallback-image-bucket";
  BackEnd.fallbackImageS3KeyBucket := "fallback-image.png";
  BackEnd.solutionVersion := "v6.2.6";
  BackEnd.solutionId := "SO0023";
  BackEnd.createSourceBucketsResource := fun key =>
    ["arn:aws:s3:::source-bucket" +:+ default "" key];
|}.

(** Viewer requests and deployments for the edge configuration. *)
Definition entry (v : string) : BackEnd.Entry :=
  {| BackEnd.value := v; BackEnd.multiValue := None |}.

Definition viewerRequest (hs : option (gmap string BackEnd.Entry))
    (q : gmap string BackEnd.Entry) : BackEnd.Request :=
  {| BackEnd.method := "GET"; BackEnd.uri := "/bucket/image.jpg";
     BackEnd.querystring := q; BackEnd.headers := hs |}.

Definition browserAccept : string :=
  "text/html,image/avif,image/webp,image/apng,*/*;q=0.8".

Definition plainDeployment : BackEnd.BackEndProps := {|
  BackEnd.uuid := "0123";
  BackEnd.cloudFrontPriceClass := "PriceClass_All";
  BackEnd.props_certificate := None;
  BackEnd.hostedZone := None;
  BackEnd.customDomain := None;
  BackEnd.logsBucket := "logs";
  BackEnd.restApiId := "api";
  BackEnd.region := "eu-west-1";
  BackEnd.originShieldEnabled := None;
  BackEnd.originShieldRegion := None;
  BackEnd.env_AWS_REGION := "eu-west-1";
|}.

Definition customDeployment : BackEnd.BackEndProps := {|
  BackEnd.uuid := "4567";
  BackEnd.cloudFrontPriceClass := "PriceClass_100";
  BackEnd.props_certificate := Some "certificate";
  BackEnd.hostedZone := Some "zone";
  BackEnd.customDomain := Some "cdn.example.com";
  BackEnd.logsBucket := "logs";
  BackEnd.restApiId := "api";
  BackEnd.region := "us-east-1";
  BackEnd.originShieldEnabled := Some "Yes";
  BackEnd.originShieldRegion := None;
  BackEnd.env_AWS_REGION := "us-east-1";
|}.

(** What the request for [/test.jpg] asks for: the key [test.jpg] in the
    first source bucket, no edits and no custom headers. *)
Definition asked_test : Asked :=
  {| a_type := Thumbor; a_bucket := "source-bucket"; a_key := "test.jpg";
     a_edits := None; a_headers := None |}.

End Scenarios.

(** * Properties *)

(** ** Strings *)

Module StrFacts.

Import Str.

Lemma startsWith_app (pre r : string) : startsWith pre (pre +:+ r) = true.
Proof.
  induction pre as [|c pre IH]; simpl; [reflexivity|].
  rewrite Ascii.eqb_refl. exact IH.
Qed.

Lemma startsWith_inv (pre s : string) :
  startsWith pre s = true -> exists r, s = pre +:+ r.
Proof.
  revert s. induction pre as [|c pre IH]; intros s H; simpl in *.
  - exists s. reflexivity.
  - destruct s as [|d s]; [discriminate|].
    destruct (Ascii.eqb c d) eqn:E; [|discriminate].
    apply Ascii.eqb_eq in E. subst d.
    destruct (IH _ H) as [r ->]. exists r. reflexivity.
Qed.

Lemma includes_Substring (needle hay : string) :
  includes needle hay = true <-> Substring needle hay.
Proof.
  split.
  - induction hay as [|c hay IH]; simpl.
    + destruct (startsWith needle "") eqn:E; [|discriminate].
      intros _. apply startsWith_inv in E as [r E]. exists "", r. exact E.
    + destruct (startsWith needle (String c hay)) eqn:E.
      * intros _. apply startsWith_inv in E as [r E]. exists "", r. exact E.
      * intros H. destruct (IH H) as (a & b & ->). exists (String c a), b. reflexivity.
  - intros (a & b & ->). induction a as [|c a IH]; simpl.
    + destruct (needle +:+ b) eqn:E; simpl; rewrite <- E, startsWith_app; reflexivity.
    + rewrite IH. destruct (startsWith needle _); reflexivity.
Qed.

Lemma truthy_nonempty (s : string) : truthy s = true <-> s <> "".
Proof. destruct s; simpl; split; intros; congruence. Qed.

Lemma append_cons (c : ascii) (s t : string) : String c s +:+ t = String c (s +:+ t).
Proof. reflexivity. Qed.

Lemma append_assoc (s t u : string) : (s +:+ t) +:+ u = s +:+ t +:+ u.
Proof.
  induction s as [|c s IH]; [reflexivity|].
  rewrite !append_cons, IH. reflexivity.
Qed.

Lemma append_nil_r (s : string) : s +:+ "" = s.
Proof.
  induction s as [|c s IH]; [reflexivity|]. rewrite append_cons, IH. reflexivity.
Qed.

Lemma length_append (s t : string) :
  String.length (s +:+ t) = (String.length s + String.length t)%nat.
Proof.
  induction s as [|c s IH]; [reflexivity|].
  rewrite append_cons. cbn [String.length]. rewrite IH. reflexivity.
Qed.

Lemma drop_app (s t : string) : drop (String.length s) (s +:+ t) = t.
Proof.
  induction s as [|c s IH]; [destruct t; reflexivity|].
  rewrite append_cons. cbn [String.length drop]. exact IH.
Qed.

(** What [drop] leaves is the end of the string. *)
Lemma drop_split (n : nat) (s : string) : exists pre, s = pre +:+ drop n s.
Proof.
  revert s. induction n as [|n IH]; intros s.
  - exists "". destruct s; reflexivity.
  - destruct s as [|c s]; [exists ""; reflexivity|].
    destruct (IH s) as [pre E]. exists (String c pre).
    rewrite append_cons. cbn [drop]. rewrite <- E. reflexivity.
Qed.

Lemma endsWith_app (suf s : string) : endsWith suf (s +:+ suf) = true.
Proof.
  unfold endsWith. rewrite length_append.
  replace (String.length s + String.length suf - String.length suf)%nat
    with (String.length s) by lia.
  rewrite drop_app, String.eqb_refl. apply Nat.leb_le. lia.
Qed.

Lemma endsWith_inv (suf s : string) :
  endsWith suf s = true -> exists pre, s = pre +:+ suf.
Proof.
  unfold endsWith. intros H. apply andb_true_iff in H as [H _].
  apply String.eqb_eq in H.
  destruct (drop_split (String.length s - String.length suf) s) as [pre E].
  exists pre. rewrite H in E. exact E.
Qed.

(** [cut] splits at a [c], and no [c] comes before it. *)
Lemma cut_inv (c : ascii) (s l r : string) :
  cut c s = Some (l, r) ->
  s = l +:+ String c r /\ forall a b, l <> a +:+ String c b.
Proof.
  revert l r. induction s as [|d s IH]; intros l r H; [discriminate H|].
  cbn [cut] in H. destruct (Ascii.eqb d c) eqn:E.
  - injection H as <- <-. apply Ascii.eqb_eq in E. subst d.
    split; [reflexivity|]. intros [|? ?] b F; discriminate F.
  - destruct (cut c s) as [[l' r']|]; [|discriminate H].
    injection H as <- <-. destruct (IH l' r' eq_refl) as [-> N].
    split; [reflexivity|]. intros [|a0 a] b F.
    + injection F as F _. subst d. rewrite Ascii.eqb_refl in E. discriminate E.
    + rewrite append_cons in F. injection F as _ F. exact (N a b F).
Qed.

End StrFacts.

(** ** The edge configuration *)

Module BackEndFacts.

Import BackEnd StrFacts.

Lemma handler_uri (r : Request) : uri (handler r) = uri r.
Proof.
  unfold handler. destruct (headers r) as [hs|]; [|reflexivity].
  destruct (hs !! "accept") as [e|]; [|reflexivity].
  destruct (Str.truthy (value e)); reflexivity.
Qed.

Lemma handler_method (r : Request) : method (handler r) = method r.
Proof.
  unfold handler. destruct (headers r) as [hs|]; [|reflexivity].
  destruct (hs !! "accept") as [e|]; [|reflexivity].
  destruct (Str.truthy (value e)); reflexivity.
Qed.

Lemma handler_querystring (r : Request) : querystring (handler r) = querystring r.
Proof.
  unfold handler. destruct (headers r) as [hs|]; [|reflexivity].
  destruct (hs !! "accept") as [e|]; [|reflexivity].
  destruct (Str.truthy (value e)); reflexivity.
Qed.

Lemma handler_headers (r1 r2 : Request) :
  headers r1 = headers r2 -> headers (handler r1) = headers (handler r2).
Proof.
  unfold handler. intros E. rewrite <- E.
  destruct (headers r1) as [hs|] eqn:H1; [|congruence].
  destruct (hs !! "accept") as [e|]; [|congruence].
  destruct (Str.truthy (value e)); [reflexivity|congruence].
Qed.

Lemma restrict_lookup (b : AllowBehavior) (m : gmap string Entry) (k : string) :
  restrict b m !! k = if allows b k then m !! k else None.
Proof.
  unfold restrict. destruct (allows b k) eqn:A.
  - destruct (m !! k) as [e|] eqn:L.
    + apply map_lookup_filter_Some. split; [exact L|exact A].
    + apply map_lookup_filter_None. left. exact L.
  - apply map_lookup_filter_None. right. intros e _. simpl. congruence.
Qed.

Lemma restrict_agree (b : AllowBehavior) (m1 m2 : gmap string Entry) :
  (forall k, allows b k = true -> m1 !! k = m2 !! k) -> restrict b m1 = restrict b m2.
Proof.
  intros H. apply map_eq. intros k. rewrite !restrict_lookup.
  destruct (allows b k) eqn:A; [apply H; exact A|reflexivity].
Qed.

Lemma allows_allowList (names : list string) (k : string) :
  allows (Behavior_allowList names) k = true <-> k ∈ names.
Proof. simpl. apply bool_decide_eq_true. Qed.

Lemma allows_either_allowList (xs ys : list string) (k : string) :
  allows (either (Behavior_allowList xs) (Behavior_allowList ys)) k = true
  <-> k ∈ xs \/ k ∈ ys.
Proof. simpl. rewrite bool_decide_eq_true. apply elem_of_app. Qed.

End BackEndFacts.

Module BackEndClaims.

Import BackEnd StrFacts BackEndFacts.

(** The cache policy of the distribution has a default TTL of one day,
    a minimum TTL of one second and a maximum TTL of 365 days, and its cache
    key holds the path, the [origin] and [accept] headers and the five
    query parameters [signature], [edits], [headers], [effort] and
    [outputFormat], and nothing else of the request. *)
Theorem cachePolicy_settings (props : BackEndProps) (r : Request) (k : string) :
  let cp := bo_cachePolicy (defaultBehavior (cloudFrontDistributionProps props)) in
  cp = cachePolicy (uuid props) /\
  toSeconds (defaultTtl cp) = 86400 /\
  toSeconds (minTtl cp) = 1 /\
  toSeconds (maxTtl cp) = 365 * 86400 /\
  cp_headerBehavior cp = Behavior_allowList ["origin"; "accept"] /\
  cp_queryStringBehavior cp
    = Behavior_allowList ["signature"; "edits"; "headers"; "effort"; "outputFormat"] /\
  key_uri (cacheKey cp r) = uri r /\
  key_headers (cacheKey cp r) !! k
    = (if bool_decide (k ∈ ["origin"; "accept"]) then headersOf r !! k else None) /\
  key_querystring (cacheKey cp r) !! k
    = (if bool_decide (k ∈ ["signature"; "edits"; "headers"; "effort"; "outputFormat"])
       then querystring r !! k else None).
Proof.
  cbn zeta. repeat split; try reflexivity.
  - unfold cacheKey; cbn [key_headers]. apply restrict_lookup.
  - unfold cacheKey; cbn [key_querystring]. apply restrict_lookup.
Qed.

(** C8. The viewer-request function replaces a non-empty Accept header by
    [image/webp] when its value contains [image/webp] and by [image/jpg]
    otherwise, and returns a request without an Accept header as it is. *)
Theorem normalizeAccept_two_variants (r : Request) :
  (forall v, acceptOf r = Some v -> v <> "" ->
     (Str.Substring "image/webp" v -> acceptOf (handler r) = Some "image/webp") /\
     (~ Str.Substring "image/webp" v -> acceptOf (handler r) = Some "image/jpg")) /\
  (acceptOf r = None -> handler r = r).
Proof.
  unfold acceptOf, handler. split.
  - intros v Hv Hne.
    destruct (headers r) as [hs|]; simpl in Hv; [|discriminate].
    destruct (hs !! "accept") as [e|]; simpl in Hv; [|discriminate].
    injection Hv as Hv. subst v.
    apply truthy_nonempty in Hne. rewrite Hne. cbn [headers mbind option_bind].
    rewrite lookup_insert_eq. cbn.
    destruct (Str.includes "image/webp" (value e)) eqn:I.
    + split; [reflexivity|]. intros N. exfalso. apply N, includes_Substring, I.
    + split; [|reflexivity]. intros S. apply includes_Substring in S. congruence.
  - intros Hv.
    destruct (headers r) as [hs|]; [|reflexivity]. simpl in Hv.
    destruct (hs !! "accept") as [e|]; [simpl in Hv; discriminate|reflexivity].
Qed.

Lemma normalizeAccept_two_variants_witness :
  acceptOf (handler (Scenarios.viewerRequest
                       (Some {[ "accept" := Scenarios.entry Scenarios.browserAccept ]}) ∅))
    = Some "image/webp" /\
  acceptOf (handler (Scenarios.viewerRequest
                       (Some {[ "accept" := Scenarios.entry "image/png,*/*" ]}) ∅))
    = Some "image/jpg" /\
  handler (Scenarios.viewerRequest (Some ∅) ∅) = Scenarios.viewerRequest (Some ∅) ∅.
Proof.
  split; [|split].
  - destruct (normalizeAccept_two_variants
                (Scenarios.viewerRequest
                   (Some {[ "accept" := Scenarios.entry Scenarios.browserAccept ]}) ∅))
      as [H _].
    destruct (H Scenarios.browserAccept) as [Hw _]; [reflexivity|discriminate|].
    apply Hw. exists "text/html,image/avif,", ",image/apng,*/*;q=0.8". reflexivity.
  - destruct (normalizeAccept_two_variants
                (Scenarios.viewerRequest
                   (Some {[ "accept" := Scenarios.entry "image/png,*/*" ]}) ∅))
      as [H _].
    destruct (H "image/png,*/*") as [_ Hj]; [reflexivity|discriminate|].
    apply Hj. intros S. apply includes_Substring in S. vm_compute in S. discriminate.
  - apply (normalizeAccept_two_variants (Scenarios.viewerRequest (Some ∅) ∅)).
    reflexivity.
Defined.

(** C9. The cache policy and the origin request policy allow the same
    headers ([origin], [accept]) and the same five query parameters, so two
    requests that differ only in other query parameters have the same cache
    key and send the same request to the origin. *)
Theorem unlisted_query_parameters (props : BackEndProps) (r1 r2 : Request) :
  agreeOutside queryStringParameters r1 r2 ->
  let b := defaultBehavior (distributionProps (distribution props)) in
  cp_headerBehavior (bo_cachePolicy b) = Behavior_allowList ["origin"; "accept"] /\
  orp_headerBehavior (bo_originRequestPolicy b) = Behavior_allowList ["origin"; "accept"] /\
  cp_queryStringBehavior (bo_cachePolicy b)
    = Behavior_allowList ["signature"; "edits"; "headers"; "effort"; "outputFormat"] /\
  orp_queryStringBehavior (bo_originRequestPolicy b)
    = Behavior_allowList ["signature"; "edits"; "headers"; "effort"; "outputFormat"] /\
  edgeCacheKey (distribution props) r1 = edgeCacheKey (distribution props) r2 /\
  edgeOriginRequest (distribution props) r1 = edgeOriginRequest (distribution props) r2.
Proof.
  intros (Hm & Hu & Hh & Hq). cbn zeta.
  repeat (split; [reflexivity|]).
  unfold edgeCacheKey, edgeOriginRequest, runViewerRequest, cacheKey, originRequestOf, headersOf.
  cbn [distribution distributionProps cloudFrontDistributionProps defaultBehavior
       functionAssociations fold_left eventType function bo_cachePolicy
       bo_originRequestPolicy].
  rewrite !handler_uri, !handler_method, !handler_querystring, Hm, Hu,
    (handler_headers r1 r2 Hh).
  split; f_equal.
  - apply restrict_agree. intros k A. apply Hq. apply allows_allowList in A. exact A.
  - apply restrict_agree. intros k A. apply Hq.
    apply allows_either_allowList in A. destruct A as [A|A]; exact A.
Qed.

Lemma unlisted_query_parameters_witness :
  edgeCacheKey (distribution Scenarios.customDeployment)
    (Scenarios.viewerRequest None
       {[ "edits" := Scenarios.entry "{}"; "utm_source" := Scenarios.entry "mail" ]})
  = edgeCacheKey (distribution Scenarios.customDeployment)
      (Scenarios.viewerRequest None {[ "edits" := Scenarios.entry "{}" ]}).
Proof.
  apply (unlisted_query_parameters Scenarios.customDeployment).
  repeat split. intros k Hk.
  unfold queryStringParameters in Hk.
  repeat (apply elem_of_cons in Hk as [->|Hk]; [reflexivity|]).
  apply elem_of_nil in Hk. destruct Hk.
Defined.

(** C10. Whatever the custom domain, the price class and the origin shield
    options of a deployment, its distribution serves GET and HEAD only, over
    HTTPS only, and caches an origin error with status 500, 501, 502, 503 or
    504 for ten minutes. *)
Theorem distribution_invariants (props : BackEndProps) :
  let d := distribution props in
  methodsOf (allowedMethods (defaultBehavior (distributionProps d))) = ["GET"; "HEAD"] /\
  viewerProtocolPolicy (defaultBehavior (distributionProps d)) = HTTPS_ONLY /\
  (forall m proto, admits d m proto = true <-> (m = "GET" \/ m = "HEAD") /\ proto = HTTPS) /\
  (forall status, status ∈ [500; 501; 502; 503; 504] ->
     errorTtl d status = Some (Duration_minutes 10) /\
     toSeconds (Duration_minutes 10) = 600).
Proof.
  cbn zeta. split; [reflexivity|]. split; [reflexivity|]. split.
  - intros m proto. unfold admits.
    cbn [distribution distributionProps cloudFrontDistributionProps defaultBehavior
         allowedMethods viewerProtocolPolicy methodsOf].
    rewrite andb_true_iff, bool_decide_eq_true.
    rewrite !elem_of_cons, elem_of_nil.
    destruct proto; simpl; intuition congruence.
  - intros status H. split; [|reflexivity].
    repeat (apply elem_of_cons in H as [->|H]; [reflexivity|]).
    apply elem_of_nil in H. destruct H.
Qed.

Lemma distribution_invariants_witness :
  errorTtl (distribution Scenarios.customDeployment) 503 = Some (Duration_minutes 10) /\
  admits (distribution Scenarios.plainDeployment) "POST" HTTPS = false /\
  admits (distribution Scenarios.plainDeployment) "GET" HTTP = false.
Proof.
  split; [|split].
  - apply (distribution_invariants Scenarios.customDeployment).
    apply list_elem_of_In. simpl. lia.
  - destruct (distribution_invariants Scenarios.plainDeployment) as (_ & _ & H & _).
    destruct (admits (distribution Scenarios.plainDeployment) "POST" HTTPS) eqn:E;
      [|reflexivity].
    apply H in E as [[E|E] _]; discriminate.
  - destruct (distribution_invariants Scenarios.plainDeployment) as (_ & _ & H & _).
    destruct (admits (distribution Scenarios.plainDeployment) "GET" HTTP) eqn:E;
      [|reflexivity].
    apply H in E as [_ E]; discriminate.
Defined.

End BackEndClaims.

(** ** Decoding the request path *)

Module DecodeFacts.

Import ImageHandler StrFacts.

Lemma bucketChar_not_slash (c : ascii) :
  bucketChar c = true -> Ascii.eqb c "/" = false.
Proof.
  intros H. destruct (Ascii.eqb c "/") eqn:E; [|reflexivity].
  apply Ascii.eqb_eq in E. subst c. discriminate H.
Qed.

Lemma cut_app (h r : string) :
  allChars bucketChar h = true -> Str.cut "/" (h +:+ String "/" r) = Some (h, r).
Proof.
  induction h as [|c h IH]; simpl; intros H; [reflexivity|].
  apply andb_true_iff in H as [Hc Hh].
  rewrite (bucketChar_not_slash c Hc), (IH Hh). reflexivity.
Qed.

Ltac peel b E H :=
  destruct b as [|? b]; simpl in E;
  [discriminate E | injection E as -> E; simpl in H].

(** A bucket name followed by a slash does not start like a scheme. *)
Lemma bucket_no_scheme (b r : string) :
  allChars bucketChar b = true ->
  Str.startsWith "https://" (b +:+ String "/" r) = false /\
  Str.startsWith "http://" (b +:+ String "/" r) = false.
Proof.
  intros H. split.
  - destruct (Str.startsWith "https://" _) eqn:S; [|reflexivity].
    apply startsWith_inv in S as [r' E].
    do 6 peel b E H. discriminate H.
  - destruct (Str.startsWith "http://" _) eqn:S; [|reflexivity].
    apply startsWith_inv in S as [r' E].
    do 5 peel b E H. discriminate H.
Qed.

Lemma bucket_no_slash (b r : string) :
  Str.truthy b = true -> allChars bucketChar b = true ->
  Str.startsWith "/" (b +:+ r) = false.
Proof.
  destruct b as [|c b]; [discriminate|]. intros _ H.
  simpl in H. apply andb_true_iff in H as [Hc _].
  destruct (Ascii.eqb_spec "/" c) as [<-|N]; [discriminate Hc|].
  apply Ascii.eqb_neq in N.
  change (String c b +:+ r) with (String c (b +:+ r)).
  cbn [Str.startsWith]. rewrite N. reflexivity.
Qed.

Lemma append_slash (h x : string) : (h +:+ "/") +:+ x = h +:+ String "/" x.
Proof.
  induction h as [|c h IH]; [reflexivity|].
  change (String c ((h +:+ "/") +:+ x) = String c (h +:+ String "/" x)).
  f_equal. exact IH.
Qed.

(** [isS3Host] recognises the names of S3 hosts and nothing else. *)
Lemma isS3Host_name (h : string) : isS3Host h = true <-> S3HostName h.
Proof.
  unfold isS3Host, S3HostName. split.
  - intros H. apply andb_true_iff in H as [H1 H2].
    apply startsWith_inv in H1 as [r ->].
    apply endsWith_inv in H2 as [pre E].
    destruct pre as [|c1 [|c2 pre]]; [discriminate E|discriminate E|].
    change ("s3" +:+ r) with (String "s" (String "3" r)) in E.
    change (String c1 (String c2 pre) +:+ ".amazonaws.com")
      with (String c1 (String c2 (pre +:+ ".amazonaws.com"))) in E.
    injection E as _ _ ->. exists pre. reflexivity.
  - intros [m ->]. apply andb_true_iff. split; [reflexivity|].
    rewrite <- append_assoc. apply endsWith_app.
Qed.

Lemma not_S3HostName (b : string) : ~ S3HostName b -> isS3Host b = false.
Proof.
  intros N. destruct (isS3Host b) eqn:E; [|reflexivity].
  exfalso. apply N, isS3Host_name, E.
Qed.

Lemma bucketChars_NoSlash (s : string) : allChars bucketChar s = true -> NoSlash s.
Proof.
  induction s as [|c s IH]; intros H [|a0 a] b F; try discriminate F.
  - injection F as -> _. discriminate H.
  - rewrite append_cons in F. injection F as _ F.
    simpl in H. apply andb_true_iff in H as [_ H]. exact (IH H a b F).
Qed.

(** Reading a path without its leading slash and scheme. *)
Lemma parsePath_bare (b k : string) :
  b <> "" -> allChars bucketChar b = true -> k <> "" ->
  bucketAndKey (b +:+ String "/" k) = Some (b, k).
Proof.
  unfold bucketAndKey. intros Hb Hc Hk.
  apply truthy_nonempty in Hb, Hk.
  rewrite (cut_app b k Hc), Hb, Hk. reflexivity.
Qed.

Lemma parsePath_tail (host b k : string) :
  (host = "" \/ exists h, host = h +:+ "/" /\ HostName h) ->
  BucketName b -> k <> "" ->
  let u := host +:+ b +:+ "/" +:+ k in
  Str.startsWith "/" u = false /\
  Str.startsWith "https://" u = false /\
  Str.startsWith "http://" u = false /\
  match Str.cut "/" u with
  | Some (first, rest) => if isS3Host first then bucketAndKey rest else bucketAndKey u
  | None => None
  end = Some (b, k).
Proof.
  intros Hhost (Hb & Hc & Hs3) Hk. cbn zeta.
  destruct Hhost as [->|(h & -> & Hh & Hhc)].
  - change ("" +:+ b +:+ "/" +:+ k) with (b +:+ String "/" k).
    destruct (bucket_no_scheme b k Hc) as [S1 S2].
    repeat split;
      [apply bucket_no_slash; [apply truthy_nonempty|]; assumption|exact S1|exact S2|].
    rewrite (cut_app b k Hc), (not_S3HostName b Hs3). apply parsePath_bare; assumption.
  - destruct Hh as [m E].
    rewrite (append_slash h (b +:+ "/" +:+ k)).
    repeat split; try (rewrite E; reflexivity).
    rewrite (cut_app h _ Hhc).
    rewrite (proj2 (isS3Host_name h)) by (exists m; exact E).
    apply parsePath_bare; assumption.
Qed.

(** Every well-formed path is read as its bucket and key. *)
Lemma parsePath_wellFormed (p b k : string) :
  WellFormedPath p b k -> parsePath p = Some (b, k).
Proof.
  intros (lead & scheme & host & -> & Hlead & Hscheme & Hhost & Hb & Hk).
  destruct (parsePath_tail host b k Hhost Hb Hk) as (T1 & T2 & T3 & T4).
  set (u := host +:+ b +:+ "/" +:+ k) in *.
  assert (Hs : stripScheme (scheme +:+ u) = u).
  { destruct Hscheme as [->|[->| ->]].
    - change ("" +:+ u) with u. unfold stripScheme. rewrite T2, T3. reflexivity.
    - reflexivity.
    - reflexivity. }
  assert (Hl : stripLeadingSlash (lead +:+ scheme +:+ u) = scheme +:+ u).
  { destruct Hlead as [->| ->]; [|reflexivity].
    change ("" +:+ scheme +:+ u) with (scheme +:+ u). unfold stripLeadingSlash.
    destruct Hscheme as [->|[->| ->]]; [|reflexivity|reflexivity].
    change ("" +:+ u) with u. rewrite T1. reflexivity. }
  unfold parsePath. rewrite Hl, Hs. exact T4.
Qed.

Lemma stripLeadingSlash_inv (p : string) :
  exists lead, Lead lead /\ p = lead +:+ stripLeadingSlash p.
Proof.
  unfold stripLeadingSlash. destruct (Str.startsWith "/" p) eqn:S.
  - apply startsWith_inv in S as [r ->]. exists "/". split; [right|]; reflexivity.
  - exists "". split; [left|]; reflexivity.
Qed.

Lemma stripScheme_inv (p : string) :
  exists scheme, Scheme scheme /\ p = scheme +:+ stripScheme p.
Proof.
  unfold stripScheme. destruct (Str.startsWith "https://" p) eqn:S1.
  - apply startsWith_inv in S1 as [r ->]. exists "https://".
    split; [right; left|]; reflexivity.
  - destruct (Str.startsWith "http://" p) eqn:S2.
    + apply startsWith_inv in S2 as [r ->]. exists "http://".
      split; [right; right|]; reflexivity.
    + exists "". split; [left|]; reflexivity.
Qed.

Lemma bucketAndKey_inv (s b k : string) :
  bucketAndKey s = Some (b, k) ->
  s = b +:+ String "/" k /\ b <> "" /\ NoSlash b /\ k <> "".
Proof.
  unfold bucketAndKey. intros H.
  destruct (Str.cut "/" s) as [[b' k']|] eqn:C; [|discriminate H].
  destruct (Str.truthy b') eqn:Tb; [|discriminate H].
  destruct (Str.truthy k') eqn:Tk; [|discriminate H].
  injection H as <- <-. destruct (cut_inv _ _ _ _ C) as [E N].
  repeat split; [exact E|apply truthy_nonempty, Tb|exact N|apply truthy_nonempty, Tk].
Qed.

(** Whatever is read from a path is a reference the path holds. *)
Lemma parsePath_sound (p b k : string) :
  parsePath p = Some (b, k) -> Reference p b k.
Proof.
  unfold parsePath. intros H.
  destruct (stripLeadingSlash_inv p) as (lead & Hl & El).
  destruct (stripScheme_inv (stripLeadingSlash p)) as (scheme & Hs & Es).
  set (s := stripScheme (stripLeadingSlash p)) in *.
  destruct (Str.cut "/" s) as [[first rest]|] eqn:C; [|discriminate H].
  destruct (cut_inv _ _ _ _ C) as [E N].
  destruct (isS3Host first) eqn:S3.
  - destruct (bucketAndKey_inv _ _ _ H) as (Er & Hb & Nb & Hk).
    exists lead, scheme, (first +:+ "/").
    split.
    { rewrite El, Es, E, Er, append_slash. reflexivity. }
    repeat split; try assumption.
    right. exists first. repeat split; [apply isS3Host_name, S3|exact N].
  - destruct (bucketAndKey_inv _ _ _ H) as (Er & Hb & Nb & Hk).
    exists lead, scheme, "".
    split.
    { rewrite El, Es, Er. reflexivity. }
    repeat split; try assumption. left. reflexivity.
Qed.

(** A well-formed path is a reference to its bucket and key. *)
Lemma wellFormed_reference (p b k : string) : WellFormedPath p b k -> Reference p b k.
Proof.
  intros (lead & scheme & host & E & Hl & Hs & Hh & (Hb & Hc & _) & Hk).
  exists lead, scheme, host. repeat split; try assumption.
  - destruct Hh as [->|(h & -> & Hn & Hhc)]; [left; reflexivity|].
    right. exists h. repeat split; [exact Hn|apply bucketChars_NoSlash, Hhc].
  - apply bucketChars_NoSlash, Hc.
Qed.

(** A path with no slash after its leading slash holds no reference. *)
Lemma slashless_unreadable (p : string) :
  Str.includes "/" (stripLeadingSlash p) = false -> forall b k, ~ Reference p b k.
Proof.
  intros I b k (lead & scheme & host & E & L & S & H & Hb & Nb & Hk).
  assert (Sub : forall x, Str.Substring "/" (scheme +:+ host +:+ b +:+ "/" +:+ x)).
  { intros x. exists (scheme +:+ host +:+ b), x. rewrite !append_assoc. reflexivity. }
  assert (N : ~ Str.Substring "/" (stripLeadingSlash p)).
  { intros F. apply includes_Substring in F. congruence. }
  apply N. destruct L as [-> | ->].
  - change ("" +:+ ?x) with x in E. subst p.
    unfold stripLeadingSlash.
    destruct (Str.startsWith "/" _) eqn:St; [|apply Sub].
    exfalso. destruct S as [-> | [-> | ->]]; [|discriminate St|discriminate St].
    destruct H as [-> | (h & -> & (m & ->) & _)]; [|discriminate St].
    destruct b as [|c b]; [apply Hb; reflexivity|].
    apply startsWith_inv in St as [r St]. injection St as -> _.
    exact (Nb "" b eq_refl).
  - subst p. apply Sub.
Qed.

End DecodeFacts.

(** ** The handler *)

Module HandlerFacts.

Import Base64 ImageHandler.

Local Open Scope list_scope.

(** Running a computation: the monad's operations as functions on logs. *)
Ltac run :=
  unfold mbind, M_bind, mret, M_ret, getOriginalImage, lift, tryCatch,
    getObject, bind, throw, ret; cbn.

Section Facts.

Variable s3 : string -> string -> Thrown + S3Object.
Variable sharp : Sharp.
Variable parseEdits : string -> Thrown + list Edit.
Variable parseHeaders : string -> Thrown + gmap string HeaderValue.
Variable env : Env.

Local Abbreviation readRequest := (readRequest parseEdits parseHeaders env).
Local Abbreviation setup := (setup s3 parseEdits parseHeaders env).
Local Abbreviation applyOne := (applyOne s3 sharp).
Local Abbreviation applyEdits := (applyEdits s3 sharp).
Local Abbreviation transform := (transform s3 sharp parseEdits parseHeaders env).
Local Abbreviation recover := (recover s3 env).
Local Abbreviation handler := (handler s3 sharp parseEdits parseHeaders env).
Local Abbreviation errorResult := (errorResult env).

Local Abbreviation fallbackCall :=
  (default "" (DEFAULT_FALLBACK_IMAGE_BUCKET env),
   default "" (DEFAULT_FALLBACK_IMAGE_KEY env)).

Lemma readRequest_locate (event : ImageHandlerEvent) (a : Asked) :
  readRequest event = inr a -> locate env event = inr (a_type a, a_bucket a, a_key a).
Proof.
  unfold ImageHandler.readRequest. intros H.
  destruct (locate env event) as [e|[[t b] k]]; [discriminate H|].
  destruct (parseOptional parseEdits _) as [e|es]; [discriminate H|].
  destruct (parseOptional parseHeaders _) as [e|hs]; [discriminate H|].
  injection H as <-. reflexivity.
Qed.

Lemma readRequest_unlocated (event : ImageHandlerEvent) (e : Thrown) :
  locate env event = inl e -> readRequest event = inl e.
Proof. unfold ImageHandler.readRequest. intros ->. reflexivity. Qed.

Lemma setup_unlocated (event : ImageHandlerEvent) (e : Thrown) (log : list Call) :
  locate env event = inl e -> setup event log = (inl e, log).
Proof. intros H. unfold ImageHandler.setup. rewrite H. reflexivity. Qed.

Lemma setup_located (event : ImageHandlerEvent) (t : RequestTypes) (b k : string)
    (log : list Call) :
  locate env event = inr (t, b, k) ->
  setup event log =
    (match s3 b k with
     | inl e => inl (sourceError k e)
     | inr o => match readRequest event with
                | inl e => inl e
                | inr a => inr (infoOf event a o)
                end
     end, log ++ [(b, k)]).
Proof.
  intros H. unfold ImageHandler.setup. rewrite H. run.
  destruct (s3 b k); [reflexivity|].
  destruct (readRequest event); reflexivity.
Qed.

Lemma setup_fetch (event : ImageHandlerEvent) (a : Asked) (log : list Call) :
  readRequest event = inr a ->
  setup event log =
    (match s3 (a_bucket a) (a_key a) with
     | inr o => inr (infoOf event a o)
     | inl e => inl (sourceError (a_key a) e)
     end, log ++ [(a_bucket a, a_key a)]).
Proof.
  intros H. rewrite (setup_located event _ _ _ log (readRequest_locate event a H)), H.
  destruct (s3 (a_bucket a) (a_key a)); reflexivity.
Qed.

Lemma applyEdits_app (pre post : list Edit) (image : Buffer) (log : list Call) :
  applyEdits (pre ++ post) image log =
    match applyEdits pre image log with
    | (inr base, log') => applyEdits post base log'
    | (inl e, log') => (inl e, log')
    end.
Proof.
  revert image log. induction pre as [|e pre IH]; intros image log; [reflexivity|].
  cbn [app ImageHandler.applyEdits]. run.
  destruct (applyOne e image log) as [[err|image'] log']; [reflexivity|]. apply IH.
Qed.

(** Edits other than overlays make no call to object storage. *)
Lemma applyEdits_quiet (es : list Edit) (image : Buffer) (log : list Call) :
  forallb (fun e => negb (isOverlay e)) es = true ->
  (applyEdits es image log).2 = log.
Proof.
  revert image. induction es as [|e es IH]; intros image H; [reflexivity|].
  simpl in H. apply andb_true_iff in H as [He H].
  destruct e as [b k|name args]; [discriminate He|].
  cbn [ImageHandler.applyEdits ImageHandler.applyOne]. run.
  destruct (applyEdit sharp name args image) as [err|image']; [reflexivity|].
  apply IH, H.
Qed.

(** Every call is added at the end of the log, and is the call of an
    overlay. *)
Lemma applyOne_calls (e : Edit) (image : Buffer) (log : list Call) :
  exists calls, (applyOne e image log).2 = log ++ calls /\
                forall c, c ∈ calls -> e = overlayWith c.1 c.2.
Proof.
  destruct e as [b k|name args]; unfold ImageHandler.applyOne; run.
  - exists [(b, k)]. split.
    + destruct (s3 b k) as [e1|o]; [reflexivity|].
      destruct (dimensions sharp image) as [e2|[bw bh]]; [reflexivity|].
      destruct (dimensions sharp (Body o)) as [e3|[ow oh]]; [reflexivity|].
      destruct (Z.ltb bw ow || Z.ltb bh oh); [reflexivity|].
      destruct (composite sharp image (Body o)); reflexivity.
    + intros c Hc. apply list_elem_of_singleton in Hc. subst c. reflexivity.
  - exists []. rewrite app_nil_r. split.
    + destruct (applyEdit sharp name args image); reflexivity.
    + intros c Hc. apply elem_of_nil in Hc. destruct Hc.
Qed.

Lemma applyEdits_calls (es : list Edit) (image : Buffer) (log : list Call) :
  exists calls, (applyEdits es image log).2 = log ++ calls /\
                forall c, c ∈ calls -> overlayWith c.1 c.2 ∈ es.
Proof.
  revert image log. induction es as [|e es IH]; intros image log.
  - exists []. cbn. rewrite app_nil_r. split; [reflexivity|].
    intros c Hc. apply elem_of_nil in Hc. destruct Hc.
  - cbn [ImageHandler.applyEdits]. run.
    destruct (applyOne_calls e image log) as (c1 & H1 & M1).
    destruct (applyOne e image log) as [[err|image'] log']; cbn in H1; subst log'.
    + exists c1. split; [reflexivity|].
      intros c Hc. rewrite <- (M1 c Hc). apply list_elem_of_here.
    + destruct (IH image' (log ++ c1)) as (c2 & H2 & M2). rewrite H2.
      exists (c1 ++ c2). split; [rewrite app_assoc; reflexivity|].
      intros c Hc. apply elem_of_app in Hc as [Hc|Hc].
      * rewrite <- (M1 c Hc). apply list_elem_of_here.
      * apply list_elem_of_further, M2, Hc.
Qed.

Lemma transform_unlocated (event : ImageHandlerEvent) (e : Thrown) :
  locate env event = inl e -> transform event [] = (inl e, []).
Proof.
  intros H. unfold ImageHandler.transform. run.
  rewrite (setup_unlocated event e [] H). reflexivity.
Qed.

Lemma transform_unfetched (event : ImageHandlerEvent) (t : RequestTypes) (b k : string)
    (e : Thrown) :
  locate env event = inr (t, b, k) -> s3 b k = inl e ->
  transform event [] = (inl (sourceError k e), [(b, k)]).
Proof.
  intros H E. unfold ImageHandler.transform. run.
  rewrite (setup_located event t b k [] H), E. reflexivity.
Qed.

Lemma transform_located (event : ImageHandlerEvent) (t : RequestTypes) (b k : string)
    (o : S3Object) :
  locate env event = inr (t, b, k) -> s3 b k = inr o ->
  transform event [] =
    match readRequest event with
    | inl e => (inl e, [(b, k)])
    | inr a =>
        match applyEdits (default [] (a_edits a)) (Body o) [(b, k)] with
        | (inr image, log) => (inr (infoOf event a o, image), log)
        | (inl e, log) => (inl e, log)
        end
    end.
Proof.
  intros H E. unfold ImageHandler.transform. run.
  rewrite (setup_located event t b k [] H), E.
  destruct (readRequest event) as [e|a]; [reflexivity|].
  unfold process. cbn.
  destruct (applyEdits _ _ _) as [[err|image] log]; reflexivity.
Qed.

Lemma transform_missing (event : ImageHandlerEvent) (a : Asked) (e : Thrown) :
  readRequest event = inr a -> s3 (a_bucket a) (a_key a) = inl e ->
  transform event [] = (inl (sourceError (a_key a) e), [(a_bucket a, a_key a)]).
Proof.
  intros H E. apply (transform_unfetched event (a_type a)); [|exact E].
  apply readRequest_locate, H.
Qed.

Lemma transform_fetched (event : ImageHandlerEvent) (a : Asked) (o : S3Object) :
  readRequest event = inr a -> s3 (a_bucket a) (a_key a) = inr o ->
  transform event [] =
    match applyEdits (default [] (a_edits a)) (Body o) [(a_bucket a, a_key a)] with
    | (inr image, log) => (inr (infoOf event a o, image), log)
    | (inl e, log) => (inl e, log)
    end.
Proof.
  intros H E.
  rewrite (transform_located event _ _ _ o (readRequest_locate event a H) E), H.
  reflexivity.
Qed.

Lemma recover_run (alb : bool) (error : Thrown) (log : list Call) :
  recover alb error log =
    match statusOf error with
    | Some status =>
        if fallbackConfigured env then
          (inr match fallbackObject s3 env with
               | inr o => fallbackResult env alb status o
               | inl _ => errorResult alb error
               end,
           log ++ [fallbackCall])
        else (inr (errorResult alb error), log)
    | None => (inr (errorResult alb error), log)
    end.
Proof.
  unfold ImageHandler.recover, fallbackObject.
  destruct (statusOf error); [|reflexivity].
  destruct (fallbackConfigured env); [|reflexivity]. run.
  destruct (s3 _ _); reflexivity.
Qed.

Lemma handler_done (event : ImageHandlerEvent) (info : ImageRequestInfo)
    (image : Buffer) (log : list Call) :
  transform event [] = (inr (info, image), log) ->
  handler event = (successResult env (isAlb event) info image, log).
Proof.
  intros H. unfold ImageHandler.handler, handlerM.
  unfold tryCatch, mbind, M_bind, bind. rewrite H. reflexivity.
Qed.

Lemma handler_caught (event : ImageHandlerEvent) (error : Thrown) (log : list Call) :
  transform event [] = (inl error, log) ->
  handler event =
    match statusOf error with
    | Some status =>
        if fallbackConfigured env then
          (match fallbackObject s3 env with
           | inr o => fallbackResult env (isAlb event) status o
           | inl _ => errorResult (isAlb event) error
           end,
           log ++ [fallbackCall])
        else (errorResult (isAlb event) error, log)
    | None => (errorResult (isAlb event) error, log)
    end.
Proof.
  intros H. unfold ImageHandler.handler, handlerM.
  unfold tryCatch at 1. unfold mbind, M_bind, bind. rewrite H, recover_run.
  destruct (statusOf error); [|reflexivity].
  destruct (fallbackConfigured env); reflexivity.
Qed.

Lemma fallbackServed_false :
  fallbackServed s3 env = false ->
  fallbackConfigured env = false \/ exists e, fallbackObject s3 env = inl e.
Proof.
  unfold fallbackServed. destruct (fallbackConfigured env); [|left; reflexivity].
  destruct (fallbackObject s3 env) as [e|o]; [right; exists e; reflexivity|discriminate].
Qed.

(** Without the fallback image the handler answers an error by its error
    response, and it answers an error without status so in any case. *)
Lemma handler_error (event : ImageHandlerEvent) (error : Thrown) (log : list Call) :
  transform event [] = (inl error, log) ->
  statusOf error = None \/ fallbackServed s3 env = false ->
  (handler event).1 = errorResult (isAlb event) error.
Proof.
  intros H F. rewrite (handler_caught event error log H).
  destruct F as [-> |F]; [reflexivity|].
  destruct (statusOf error); [|reflexivity].
  destruct (fallbackServed_false F) as [-> |[e E]]; [reflexivity|].
  rewrite E. destruct (fallbackConfigured env); reflexivity.
Qed.

Lemma errorHeaders_contentType (alb : bool) :
  getResponseHeaders env true alb !! "Content-Type" = Some (hv_string "application/json").
Proof. unfold getResponseHeaders. apply lookup_insert_eq. Qed.

(** The handler's own headers of an image response are not replaced by
    custom headers. *)
Lemma successHeaders_own (alb : bool) (info : ImageRequestInfo) :
  successHeaders env alb info !! "Content-Type" = Some (ofOption (contentType info)) /\
  successHeaders env alb info !! "Cache-Control" = Some (ofOption (cacheControl info)).
Proof.
  unfold successHeaders. cbn zeta.
  set (h := getResponseHeaders env false alb).
  assert (C : <["Cache-Control" := ofOption (cacheControl info)]>
                (<["Last-Modified" := ofOption (lastModified info)]>
                   (<["Expires" := ofOption (expires info)]>
                      (<["Content-Type" := ofOption (contentType info)]> h)))
              !! "Content-Type" = Some (ofOption (contentType info))).
  { rewrite !lookup_insert_ne by discriminate. apply lookup_insert_eq. }
  destruct (headers info) as [custom|].
  - split; apply lookup_union_Some_l; [exact C|apply lookup_insert_eq].
  - split; [exact C|apply lookup_insert_eq].
Qed.

(** The calls of a request whose path gives a bucket and a key: the source
    image first, then overlay images and the fallback image. *)
Lemma handler_calls (event : ImageHandlerEvent) (t : RequestTypes) (b k : string) :
  locate env event = inr (t, b, k) ->
  exists rest,
    (handler event).2 = (b, k) :: rest /\
    forall c, c ∈ rest ->
      c = fallbackCall \/ overlayWith c.1 c.2 ∈ askedEdits parseEdits parseHeaders env event.
Proof.
  intros L.
  assert (P : exists calls,
              (transform event []).2 = (b, k) :: calls /\
              forall c, c ∈ calls ->
                overlayWith c.1 c.2 ∈ askedEdits parseEdits parseHeaders env event).
  { destruct (s3 b k) as [e|o] eqn:E.
    - exists []. rewrite (transform_unfetched event t b k e L E).
      split; [reflexivity|]. intros c Hc. apply elem_of_nil in Hc. destruct Hc.
    - rewrite (transform_located event t b k o L E). unfold askedEdits.
      destruct (readRequest event) as [e|a].
      + exists []. split; [reflexivity|].
        intros c Hc. apply elem_of_nil in Hc. destruct Hc.
      + destruct (applyEdits_calls (default [] (a_edits a)) (Body o) [(b, k)])
          as (calls & C & M).
        exists calls. split; [|exact M].
        destruct (applyEdits _ _ _) as [[err|image] log']; cbn in C; subst log';
          reflexivity. }
  destruct P as (calls & P & M).
  destruct (transform event []) as [[error|[info image]] log] eqn:T; cbn in P; subst log.
  - rewrite (handler_caught event error _ T).
    destruct (statusOf error);
      [destruct (fallbackConfigured env)|]; cbn [snd].
    + exists (calls ++ [fallbackCall]). split; [reflexivity|].
      intros c Hc. apply elem_of_app in Hc as [Hc|Hc]; [right; apply M, Hc|].
      apply list_elem_of_singleton in Hc. left. exact Hc.
    + exists calls. split; [reflexivity|]. intros c Hc. right. apply M, Hc.
    + exists calls. split; [reflexivity|]. intros c Hc. right. apply M, Hc.
  - rewrite (handler_done event info image _ T).
    exists calls. split; [reflexivity|]. intros c Hc. right. apply M, Hc.
Qed.

(** A request that is processed successfully was read, its image fetched
    and its edits applied. *)
Lemma transform_done (event : ImageHandlerEvent) (info : ImageRequestInfo)
    (image : Buffer) (log : list Call) :
  transform event [] = (inr (info, image), log) ->
  exists a o,
    readRequest event = inr a /\
    s3 (a_bucket a) (a_key a) = inr o /\
    info = infoOf event a o /\
    applyEdits (default [] (a_edits a)) (Body o) [(a_bucket a, a_key a)] = (inr image, log).
Proof.
  intros T.
  destruct (locate env event) as [e|[[t b] k]] eqn:L.
  { rewrite (transform_unlocated event e L) in T. discriminate T. }
  destruct (s3 b k) as [e|o] eqn:E.
  { rewrite (transform_unfetched event t b k e L E) in T. discriminate T. }
  rewrite (transform_located event t b k o L E) in T.
  destruct (readRequest event) as [e|a] eqn:R; [discriminate T|].
  pose proof (readRequest_locate event a R) as L'. rewrite L in L'.
  injection L' as -> -> ->.
  exists a, o. split; [reflexivity|]. split; [exact E|].
  destruct (applyEdits _ _ _) as [[err|image'] log']; [discriminate T|].
  injection T as <- <- <-. split; reflexivity.
Qed.

(** *** The handler does not read the log *)

Lemma oblivious_ret {A} (a : A) : oblivious (mret a : M A).
Proof. intros log. cbn. rewrite app_nil_r. reflexivity. Qed.

Lemma oblivious_throw {A} (e : Thrown) : oblivious (throw e : M A).
Proof. intros log. cbn. rewrite app_nil_r. reflexivity. Qed.

Lemma oblivious_lift {A} (r : Thrown + A) : oblivious (lift r).
Proof. destruct r; [apply oblivious_throw|apply (oblivious_ret a)]. Qed.

Lemma oblivious_getObject (b k : string) : oblivious (getObject s3 b k).
Proof. intros log. reflexivity. Qed.

Lemma oblivious_bind {A B} (m : M A) (f : A -> M B) :
  oblivious m -> (forall a, oblivious (f a)) -> oblivious (m ≫= f).
Proof.
  intros Hm Hf log. unfold mbind, M_bind, bind.
  rewrite (Hm log). destruct (m []) as [[e|a] c1]; cbn [fst snd]; [reflexivity|].
  rewrite (Hf a (log ++ c1)), (Hf a c1). cbn [fst snd].
  rewrite app_assoc. reflexivity.
Qed.

Lemma oblivious_tryCatch {A} (m : M A) (h : Thrown -> M A) :
  oblivious m -> (forall e, oblivious (h e)) -> oblivious (tryCatch m h).
Proof.
  intros Hm Hh log. unfold tryCatch.
  rewrite (Hm log). destruct (m []) as [[e|a] c1]; cbn [fst snd]; [|reflexivity].
  rewrite (Hh e (log ++ c1)), (Hh e c1). cbn [fst snd].
  rewrite app_assoc. reflexivity.
Qed.

Lemma oblivious_applyOne (e : Edit) (image : Buffer) : oblivious (applyOne e image).
Proof.
  destruct e as [b k|name args]; cbn [ImageHandler.applyOne]; [|apply oblivious_lift].
  apply oblivious_bind; [apply oblivious_getObject|]. intros o.
  apply oblivious_bind; [apply oblivious_lift|]. intros [bw bh].
  apply oblivious_bind; [apply oblivious_lift|]. intros [ow oh].
  destruct (Z.ltb bw ow || Z.ltb bh oh); [apply oblivious_throw|apply oblivious_lift].
Qed.

Lemma oblivious_applyEdits (es : list Edit) (image : Buffer) :
  oblivious (applyEdits es image).
Proof.
  revert image. induction es as [|e es IH]; intros image; cbn [ImageHandler.applyEdits].
  - apply (oblivious_ret image).
  - apply oblivious_bind; [apply oblivious_applyOne|]. intros image'. apply IH.
Qed.

Lemma oblivious_transform (event : ImageHandlerEvent) : oblivious (transform event).
Proof.
  unfold ImageHandler.transform.
  apply oblivious_bind.
  - unfold ImageHandler.setup.
    apply oblivious_bind; [apply oblivious_lift|]. intros [[t b] k].
    apply oblivious_bind.
    + unfold getOriginalImage.
      apply oblivious_tryCatch; [apply oblivious_getObject|].
      intros e. apply oblivious_throw.
    + intros o. apply oblivious_bind; [apply oblivious_lift|].
      intros a. apply (oblivious_ret (infoOf event a o)).
  - intros info. apply oblivious_bind; [apply oblivious_applyEdits|].
    intros image. apply (oblivious_ret (info, image)).
Qed.

Lemma oblivious_recover (alb : bool) (error : Thrown) : oblivious (recover alb error).
Proof.
  unfold ImageHandler.recover.
  destruct (statusOf error) as [status|]; [|apply (oblivious_ret (errorResult alb error))].
  destruct (fallbackConfigured env); [|apply (oblivious_ret (errorResult alb error))].
  apply oblivious_tryCatch.
  - apply oblivious_bind; [apply oblivious_getObject|].
    intros o. apply (oblivious_ret (fallbackResult env alb status o)).
  - intros e. apply (oblivious_ret (errorResult alb error)).
Qed.

Lemma oblivious_handlerM (event : ImageHandlerEvent) :
  oblivious (handlerM s3 sharp parseEdits parseHeaders env event).
Proof.
  unfold handlerM. apply oblivious_tryCatch.
  - apply oblivious_bind; [apply oblivious_transform|].
    intros [info image]. apply (oblivious_ret (successResult env (isAlb event) info image)).
  - intros e. apply oblivious_recover.
Qed.

(** The handler returns a result whatever happens, and after earlier calls
    it returns the same result and makes the same calls. *)
Lemma handlerM_run (event : ImageHandlerEvent) (log : list Call) :
  handlerM s3 sharp parseEdits parseHeaders env event log
  = (inr (handler event).1, log ++ (handler event).2).
Proof.
  rewrite (oblivious_handlerM event log).
  assert (R : exists r calls,
              handlerM s3 sharp parseEdits parseHeaders env event [] = (inr r, calls)).
  { unfold handlerM, tryCatch at 1. unfold mbind, M_bind, bind.
    destruct (transform event []) as [[error|[info image]] log0].
    - rewrite recover_run.
      destruct (statusOf error); [destruct (fallbackConfigured env)|];
        eexists _, _; reflexivity.
    - eexists _, _; reflexivity. }
  destruct R as (r & calls & R). unfold ImageHandler.handler. rewrite R. reflexivity.
Qed.

End Facts.

End HandlerFacts.

Module HandlerClaims.

Import Base64 ImageHandler StrFacts DecodeFacts HandlerFacts.

Local Open Scope list_scope.

(** C2. [decodeRequest] throws the 400 error [DecodeRequest::CannotReadPath]
    for an event without a path and for a path that holds no reference to a
    bucket and a key, and throws nothing else; for a path that is a
    well-formed S3 URL or bucket/key path it returns the bucket and the key
    of that path, and whatever it returns is a bucket and a key the path
    holds. *)
Theorem decodeRequest_path (event : ImageHandlerEvent) :
  (path event = None -> decodeRequest event = inl CannotReadPath) /\
  (forall p, path event = Some p -> (forall b k, ~ Reference p b k) ->
     decodeRequest event = inl CannotReadPath) /\
  (forall p b k, path event = Some p -> WellFormedPath p b k ->
     decodeRequest event = inr {| dr_bucket := Some b; dr_key := k |}) /\
  (forall r, decodeRequest event = inr r ->
     exists p b, path event = Some p /\ dr_bucket r = Some b /\ Reference p b (dr_key r)) /\
  (forall e, decodeRequest event = inl e -> e = CannotReadPath) /\
  statusOf CannotReadPath = Some BAD_REQUEST /\
  statusNumber BAD_REQUEST = 400 /\
  codeOf CannotReadPath = Str "DecodeRequest::CannotReadPath" /\
  messageOf CannotReadPath =
    Str "The URL path you provided could not be read. Please ensure that it is properly formed according to the solution documentation.".
Proof.
  unfold decodeRequest. repeat split.
  - intros ->. reflexivity.
  - intros p -> N. destruct (parsePath p) as [[b k]|] eqn:P; [|reflexivity].
    exfalso. exact (N b k (parsePath_sound p b k P)).
  - intros p b k -> W. rewrite (parsePath_wellFormed p b k W). reflexivity.
  - intros r H. destruct (path event) as [p|]; [|discriminate H].
    destruct (parsePath p) as [[b k]|] eqn:P; [|discriminate H].
    injection H as <-. exists p, b. repeat split. apply parsePath_sound, P.
  - intros e H. destruct (path event) as [p|]; [|congruence].
    destruct (parsePath p) as [[b k]|]; [discriminate H|congruence].
Qed.

Lemma decodeRequest_path_witness :
  decodeRequest Scenarios.noPath = inl CannotReadPath /\
  decodeRequest (Scenarios.event "/someNonBase64EncodedContentHere" None)
    = inl CannotReadPath /\
  decodeRequest
    (Scenarios.event "/https://s3-eu-west-1.amazonaws.com/bucket-name-here/key-name-here" None)
    = inr {| dr_bucket := Some "bucket-name-here"; dr_key := "key-name-here" |} /\
  Reference "source-bucket/transparent-10x10.png" "source-bucket" "transparent-10x10.png".
Proof.
  split; [|split; [|split]].
  - apply (decodeRequest_path Scenarios.noPath). reflexivity.
  - apply (decodeRequest_path (Scenarios.event "/someNonBase64EncodedContentHere" None))
      with (p := "/someNonBase64EncodedContentHere"); [reflexivity|].
    apply slashless_unreadable. reflexivity.
  - apply (decodeRequest_path
             (Scenarios.event
                "/https://s3-eu-west-1.amazonaws.com/bucket-name-here/key-name-here" None))
      with (p := "/https://s3-eu-west-1.amazonaws.com/bucket-name-here/key-name-here");
      [reflexivity|].
    exists "/", "https://", "s3-eu-west-1.amazonaws.com/".
    split; [reflexivity|]. split; [right; reflexivity|].
    split; [right; left; reflexivity|].
    split.
    { right. exists "s3-eu-west-1.amazonaws.com". split; [reflexivity|].
      split; [exists "-eu-west-1"; reflexivity|reflexivity]. }
    split; [|discriminate].
    split; [discriminate|]. split; [reflexivity|].
    intros [m E]. discriminate E.
  - destruct (decodeRequest_path
                (Scenarios.event "source-bucket/transparent-10x10.png" None))
      as (_ & _ & _ & S & _).
    destruct (S {| dr_bucket := Some "source-bucket"; dr_key := "transparent-10x10.png" |}
                eq_refl) as (p & b & Ep & Eb & R).
    injection Ep as <-. injection Eb as <-. exact R.
Defined.

Section Claims.

Variable s3 : string -> string -> Thrown + S3Object.
Variable sharp : Sharp.
Variable parseEdits : string -> Thrown + list Edit.
Variable parseHeaders : string -> Thrown + gmap string HeaderValue.
Variable env : Env.

Local Abbreviation readRequest := (readRequest parseEdits parseHeaders env).
Local Abbreviation askedEdits := (askedEdits parseEdits parseHeaders env).
Local Abbreviation applyEdits := (applyEdits s3 sharp).
Local Abbreviation transform := (transform s3 sharp parseEdits parseHeaders env).
Local Abbreviation handlerM := (handlerM s3 sharp parseEdits parseHeaders env).
Local Abbreviation handler := (handler s3 sharp parseEdits parseHeaders env).
Local Abbreviation errorResult := (errorResult env).


(** C3. When the source image cannot be fetched and the fallback image is
    enabled with a bucket and a key, the handler fetches the fallback image
    and returns its bytes in base64 with the status of the error it caught,
    which is not 200; when the bucket or the key is empty, or the fallback
    image cannot be fetched either, it returns that error as a JSON body
    that is not base64. *)
Theorem fallback_image (event : ImageHandlerEvent) (a : Asked) (e : Thrown) :
  readRequest event = inr a ->
  s3 (a_bucket a) (a_key a) = inl e ->
  let original := sourceError (a_key a) e in
  let source := (a_bucket a, a_key a) in
  let fallback := (default "" (DEFAULT_FALLBACK_IMAGE_BUCKET env),
                   default "" (DEFAULT_FALLBACK_IMAGE_KEY env)) in
  (ENABLE_DEFAULT_FALLBACK_IMAGE env = Some "Yes" ->
   isEmpty (DEFAULT_FALLBACK_IMAGE_BUCKET env) = false ->
   isEmpty (DEFAULT_FALLBACK_IMAGE_KEY env) = false ->
   (forall o, s3 fallback.1 fallback.2 = inr o ->
      handler event =
        ({| statusCode := NOT_FOUND;
            isBase64Encoded := true;
            res_headers := fallbackHeaders env (isAlb event) o;
            body := encode (Body o) |}, [source; fallback])) /\
   (forall e', s3 fallback.1 fallback.2 = inl e' ->
      handler event = (errorResult (isAlb event) original, [source; fallback]))) /\
  (isEmpty (DEFAULT_FALLBACK_IMAGE_BUCKET env) = true \/
   isEmpty (DEFAULT_FALLBACK_IMAGE_KEY env) = true ->
   handler event = (errorResult (isAlb event) original, [source])) /\
  statusOf original = Some NOT_FOUND /\
  NOT_FOUND <> OK /\
  errorResult (isAlb event) original =
    {| statusCode := NOT_FOUND;
       isBase64Encoded := false;
       res_headers := getResponseHeaders env true (isAlb event);
       body := Json.stringify
                 ([("status", Json.Num 404)] ++ field "code" (codeOf original)
                  ++ field "message" (messageOf original)) |}.
Proof.
  intros R E. cbn zeta.
  pose proof (transform_missing s3 sharp parseEdits parseHeaders env event a e R E) as T.
  pose proof (handler_caught s3 sharp parseEdits parseHeaders env event _ _ T) as H.
  cbn [statusOf sourceError] in H.
  split; [|split; [|repeat split; discriminate]].
  - intros Y B K.
    assert (C : fallbackConfigured env = true).
    { unfold fallbackConfigured, isYes. rewrite Y, B, K. reflexivity. }
    rewrite C in H. unfold fallbackObject in H. cbn [fst snd].
    split; [intros o O|intros e' O]; rewrite O in H; exact H.
  - intros Em.
    assert (C : fallbackConfigured env = false).
    { unfold fallbackConfigured. destruct Em as [-> | ->];
        rewrite ?andb_false_r; reflexivity. }
    rewrite C in H. exact H.
Qed.





End Claims.

(** *** The claims on the scenarios of the tests *)

Import Scenarios.


Lemma fallback_image_witness :
  run s3_fallback env_fallback (event "/test.jpg" None) =
    ({| statusCode := NOT_FOUND;
        isBase64Encoded := true;
        res_headers := fallbackHeaders env_fallback false
                         (object mockFallbackImage (Some "image/png"));
        body := "U2FtcGxlRmFsbGJhY2tJbWFnZUNvbnRlbnQK" |},
     [("source-bucket", "test.jpg"); ("fallback-image-bucket", "fallback-image.png")]) /\
  (run s3_missing env_noKey (event "/test.jpg" None)).2 = [("source-bucket", "test.jpg")].
Proof.
  destruct (fallback_image s3_fallback sharp parseEdits parseHeaders env_fallback
              (event "/test.jpg" None) asked_test
              UnknownError eq_refl eq_refl) as (H & _).
  destruct (H eq_refl eq_refl eq_refl) as (H1 & _).
  split; [exact (H1 _ eq_refl)|].
  destruct (fallback_image s3_missing sharp parseEdits parseHeaders env_noKey
              (event "/test.jpg" None) asked_test
              NoSuchKey eq_refl eq_refl) as (_ & H2 & _).
  unfold run. rewrite (H2 (or_intror eq_refl)). reflexivity.
Defined.








End HandlerClaims.


(** ** The test suite, replayed on the model *)

Module TestSuite.

Import Base64 ImageHandler Scenarios.

Local Open Scope list_scope.

(** "should return the image when there is no error" *)
Example test_image :
  run s3_image env0 (event "/test.jpg" None) =
    ({| statusCode := OK; isBase64Encoded := true;
        res_headers := list_to_map (baseHeaders ++ credentials ++ imageHeaders "image/jpeg");
        body := encode mockImage |},
     [("source-bucket", "test.jpg")]).
Proof. vm_compute. reflexivity. Qed.

(** "should return the image with custom headers when custom headers are
    provided" *)
Example test_custom_headers :
  run s3_image env0
    (event "/https://s3-eu-west-1.amazonaws.com/source-bucket/test.jpg"
       (query None (Some "Custom-Header"))) =
    ({| statusCode := OK; isBase64Encoded := true;
        res_headers := list_to_map (baseHeaders ++ credentials ++ imageHeaders "image/jpeg"
                                    ++ [("Custom-Header", hv_string "CustomValue")]);
        body := encode mockImage |},
     [("source-bucket", "test.jpg")]).
Proof. vm_compute. reflexivity. Qed.

(** "should return the image when the request is from ALB" *)
Example test_alb :
  run s3_image env0 (albEvent "/test.jpg") =
    ({| statusCode := OK; isBase64Encoded := true;
        res_headers := list_to_map (baseHeaders ++ imageHeaders "image/jpeg");
        body := encode mockImage |},
     [("source-bucket", "test.jpg")]).
Proof. vm_compute. reflexivity. Qed.

(** "should return an error JSON when an error occurs" *)
Example test_error_json :
  run s3_missing env0 (event "/test.jpg" None) =
    ({| statusCode := NOT_FOUND; isBase64Encoded := false;
        res_headers := list_to_map (baseHeaders ++ credentials
                                    ++ [("Content-Type", hv_string "application/json")]);
        body := notFoundBody |},
     [("source-bucket", "test.jpg")]).
Proof. vm_compute. reflexivity. Qed.

(** "should return 500 error when there is no error status in the error" *)
Example test_no_status :
  run s3_image env0
    (event "https://s3-eu-west-1.amazonaws.com/source-bucket/test.jpg"
       (query (Some "wrongFilter") None)) =
    ({| statusCode := INTERNAL_SERVER_ERROR; isBase64Encoded := false;
        res_headers := list_to_map (baseHeaders ++ credentials
                                    ++ [("Content-Type", hv_string "application/json")]);
        body := Json.stringify
                  [("message", Json.Text "Internal error. Please contact the system administrator.");
                   ("code", Json.Text "InternalError");
                   ("status", Json.Num 500)] |},
     [("source-bucket", "test.jpg")]).
Proof. vm_compute. reflexivity. Qed.

(** "should return the default fallback image when an error occurs if the
    default fallback image is enabled" *)
Example test_fallback :
  run s3_fallback env_fallback (event "/test.jpg" None) =
    ({| statusCode := NOT_FOUND; isBase64Encoded := true;
        res_headers := list_to_map (baseHeaders ++ credentials
                                    ++ [("Access-Control-Allow-Origin", hv_string "*");
                                        ("Content-Type", hv_string "image/png");
                                        ("Cache-Control", hv_string "max-age=31536000,public");
                                        ("Last-Modified", hv_undefined)]);
        body := encode mockFallbackImage |},
     [("source-bucket", "test.jpg"); ("fallback-image-bucket", "fallback-image.png")]).
Proof. vm_compute. reflexivity. Qed.

(** "should return an error JSON when getting the default fallback image
    fails if the default fallback image is enabled" *)
Example test_fallback_fails :
  run s3_missing env_fallback (event "/test.jpg" None) =
    ({| statusCode := NOT_FOUND; isBase64Encoded := false;
        res_headers := list_to_map (baseHeaders ++ credentials
                                    ++ [("Access-Control-Allow-Origin", hv_string "*");
                                        ("Content-Type", hv_string "application/json")]);
        body := notFoundBody |},
     [("source-bucket", "test.jpg"); ("fallback-image-bucket", "fallback-image.png")]).
Proof. vm_compute. reflexivity. Qed.

(** "should return an error JSON when the default fallback image key is not
    provided if the default fallback image is enabled" *)
Example test_fallback_no_key :
  run s3_missing env_noKey (event "/test.jpg" None) =
    ({| statusCode := NOT_FOUND; isBase64Encoded := false;
        res_headers := list_to_map (baseHeaders ++ credentials
                                    ++ [("Access-Control-Allow-Origin", hv_string "*");
                                        ("Content-Type", hv_string "application/json")]);
        body := notFoundBody |},
     [("source-bucket", "test.jpg")]).
Proof. vm_compute. reflexivity. Qed.

(** "Should return an error JSON when ALB request is failed" *)
Example test_alb_fails :
  run s3_missing env_noBucket (albEvent "/test.jpg") =
    ({| statusCode := NOT_FOUND; isBase64Encoded := false;
        res_headers := list_to_map (baseHeaders
                                    ++ [("Access-Control-Allow-Origin", hv_string "*");
                                        ("Content-Type", hv_string "application/json")]);
        body := notFoundBody |},
     [("source-bucket", "test.jpg")]).
Proof. vm_compute. reflexivity. Qed.

(** "should return an error JSON with the expected message when one or both
    overlay image dimensions are greater than the base image dimensions" *)
Example test_overlay :
  run s3_overlay env_noBucket
    (event "source-bucket/transparent-10x10.png"
       (query (Some "overlayWith") (Some "Custom-Header"))) =
    ({| statusCode := BAD_REQUEST; isBase64Encoded := false;
        res_headers := list_to_map (baseHeaders ++ credentials
                                    ++ [("Access-Control-Allow-Origin", hv_string "*");
                                        ("Content-Type", hv_string "application/json")]);
        body := Json.stringify
                  [("message", Json.Text "Image to overlay must have same dimensions or smaller");
                   ("code", Json.Text "BadRequest");
                   ("status", Json.Num 400)] |},
     [("source-bucket", "transparent-10x10.png"); ("source-bucket", "transparent-5x5.png")]).
Proof. vm_compute. reflexivity. Qed.

(** [decode-request.spec.ts]: "Should pass if a valid base64-encoded path
    has been specified" *)
Example test_decode_valid :
  decodeRequest
    (event "/https://s3-eu-west-1.amazonaws.com/bucket-name-here/key-name-here" None)
  = inr {| dr_bucket := Some "bucket-name-here"; dr_key := "key-name-here" |}.
Proof. vm_compute. reflexivity. Qed.

(** "Should throw an error if a valid s3 path has not been specified" *)
Example test_decode_invalid :
  decodeRequest (event "/someNonBase64EncodedContentHere" None) = inl CannotReadPath.
Proof. vm_compute. reflexivity. Qed.

(** "Should throw an error if no path is specified at all" *)
Example test_decode_no_path : decodeRequest noPath = inl CannotReadPath.
Proof. vm_compute. reflexivity. Qed.

(** The formats the README lists as accepted, as the paths of their URLs. *)
Example readme_formats :
  parsePath "/bucket/folder/image.jpg" = Some ("bucket", "folder/image.jpg") /\
  parsePath "/s3.us-east-1.amazonaws.com/bucket/test.jpg" = Some ("bucket", "test.jpg") /\
  parsePath "/https://s3.amazonaws.com/bucket/test" = Some ("bucket", "test") /\
  parsePath "/s3.amazonaws.com/bucket/test.jpg" = Some ("bucket", "test.jpg") /\
  parsePath "/https://s3-us-east-1.amazonaws.com/source-bucket/test.jpg"
    = Some ("source-bucket", "test.jpg").
Proof. vm_compute. repeat split. Qed.

End TestSuite.

(** * Further properties of [back-end-construct.ts] *)

(** ** The viewer-request function *)

Module EdgeFacts.

Import BackEnd StrFacts BackEndFacts.

Lemma normalizeEntry_idem (e : Entry) : normalizeEntry (normalizeEntry e) = normalizeEntry e.
Proof.
  unfold normalizeEntry. destruct (Str.truthy (value e)) eqn:T.
  - destruct (Str.includes "image/webp" (value e)); reflexivity.
  - rewrite T. reflexivity.
Qed.

(** The headers of the returned request, one name at a time. *)
Lemma handler_lookup (r : Request) (k : string) :
  headersOf (handler r) !! k =
    if bool_decide (k = "accept") then normalizeEntry <$> (headersOf r !! "accept")
    else headersOf r !! k.
Proof.
  unfold handler, headersOf.
  destruct (headers r) as [hs|] eqn:H; cbn [default from_option id].
  2:{ rewrite H. cbn. rewrite !lookup_empty. destruct (bool_decide _); reflexivity. }
  destruct (hs !! "accept") as [e|] eqn:A.
  - destruct (Str.truthy (value e)) eqn:T; cbn.
    + case_bool_decide as K.
      * subst k. rewrite lookup_insert_eq. unfold normalizeEntry. rewrite T. reflexivity.
      * rewrite lookup_insert_ne by congruence. reflexivity.
    + rewrite H. cbn. unfold normalizeEntry. rewrite T.
      case_bool_decide as K; [subst k; exact A|reflexivity].
  - rewrite H. cbn. case_bool_decide as K; [subst k; exact A|reflexivity].
Qed.

Lemma handler_headers_none (r : Request) :
  headers (handler r) = None <-> headers r = None.
Proof.
  unfold handler. destruct (headers r) as [hs|] eqn:H; [|rewrite H; tauto].
  destruct (hs !! "accept") as [e|]; [|rewrite H; tauto].
  destruct (Str.truthy (value e)); [cbn|rewrite H]; split; intros; discriminate.
Qed.

(** The cache key and the origin request read the request through its
    method, path, query string and its [origin] and [accept] headers after
    the viewer-request function. *)
Lemma edge_agree (props : BackEndProps) (r1 r2 : Request) :
  method r1 = method r2 -> uri r1 = uri r2 -> querystring r1 = querystring r2 ->
  (forall k, k ∈ ["origin"; "accept"] ->
     headersOf (handler r1) !! k = headersOf (handler r2) !! k) ->
  edgeCacheKey (distribution props) r1 = edgeCacheKey (distribution props) r2 /\
  edgeOriginRequest (distribution props) r1 = edgeOriginRequest (distribution props) r2.
Proof.
  intros Hm Hu Hq Hh.
  unfold edgeCacheKey, edgeOriginRequest, runViewerRequest, cacheKey, originRequestOf.
  cbn [distribution distributionProps cloudFrontDistributionProps defaultBehavior
       functionAssociations fold_left eventType function bo_cachePolicy
       bo_originRequestPolicy].
  rewrite !handler_uri, !handler_method, !handler_querystring, Hm, Hu, Hq.
  assert (R1 : restrict (cp_headerBehavior (cachePolicy (uuid props))) (headersOf (handler r1))
               = restrict (cp_headerBehavior (cachePolicy (uuid props))) (headersOf (handler r2))).
  { apply restrict_agree. intros k A. apply Hh. apply allows_allowList in A. exact A. }
  assert (R2 : restrict (either (cp_headerBehavior (cachePolicy (uuid props)))
                                (orp_headerBehavior (originRequestPolicy (uuid props))))
                 (headersOf (handler r1))
               = restrict (either (cp_headerBehavior (cachePolicy (uuid props)))
                                  (orp_headerBehavior (originRequestPolicy (uuid props))))
                   (headersOf (handler r2))).
  { apply restrict_agree. intros k A. apply Hh.
    apply allows_either_allowList in A. destruct A as [A|A]; exact A. }
  rewrite R1, R2. split; reflexivity.
Qed.

End EdgeFacts.

Module EdgeExtras.

Import BackEnd StrFacts BackEndFacts EdgeFacts.

Lemma acceptOf_lookup (r : Request) : acceptOf r = value <$> (headersOf r !! "accept").
Proof.
  unfold acceptOf, headersOf. destruct (headers r) as [hs|]; cbn.
  - destruct (hs !! "accept"); reflexivity.
  - rewrite lookup_empty. reflexivity.
Qed.

(** X1. Running the viewer-request function on its own result changes
    nothing more: a normalised request is a fixed point. *)
Theorem handler_idempotent (r : Request) : handler (handler r) = handler r.
Proof.
  destruct (headers r) as [hs|] eqn:H.
  2:{ assert (E : handler r = r) by (unfold handler; rewrite H; reflexivity).
      rewrite E. exact E. }
  destruct (hs !! "accept") as [e|] eqn:A.
  2:{ assert (E : handler r = r) by (unfold handler; rewrite H, A; reflexivity).
      rewrite E. exact E. }
  destruct (Str.truthy (value e)) eqn:T.
  2:{ assert (E : handler r = r) by (unfold handler; rewrite H, A, T; reflexivity).
      rewrite E. exact E. }
  assert (E : handler r =
              {| method := method r; uri := uri r; querystring := querystring r;
                 headers := Some (<["accept" := normalizeEntry e]> hs) |}).
  { unfold handler, normalizeEntry. rewrite H, A, T. reflexivity. }
  rewrite E. unfold handler at 1. cbn [headers method uri querystring].
  rewrite lookup_insert_eq.
  pose proof (normalizeEntry_idem e) as I.
  unfold normalizeEntry at 1 in I.
  destruct (Str.truthy (value (normalizeEntry e))) eqn:T'.
  - rewrite insert_insert_eq. rewrite I. reflexivity.
  - reflexivity.
Qed.

(** X2. The viewer-request function touches the Accept entry only: the
    method, the path, the query string and every other header are those of
    the viewer request, it adds no Accept header to a request without one
    and removes none. *)
Theorem handler_frame (r : Request) :
  method (handler r) = method r /\
  uri (handler r) = uri r /\
  querystring (handler r) = querystring r /\
  (headers (handler r) = None <-> headers r = None) /\
  (forall k, k <> "accept" -> headersOf (handler r) !! k = headersOf r !! k) /\
  (is_Some (headersOf (handler r) !! "accept") <-> is_Some (headersOf r !! "accept")).
Proof.
  split; [apply handler_method|]. split; [apply handler_uri|].
  split; [apply handler_querystring|]. split; [apply handler_headers_none|]. split.
  - intros k K. rewrite handler_lookup. rewrite bool_decide_eq_false_2 by exact K.
    reflexivity.
  - rewrite handler_lookup. cbn. apply fmap_is_Some.
Qed.

Lemma handler_frame_witness :
  headersOf (handler (Scenarios.viewerRequest
                        (Some {[ "accept" := Scenarios.entry Scenarios.browserAccept;
                                 "origin" := Scenarios.entry "https://example.com" ]}) ∅))
    !! "origin" = Some (Scenarios.entry "https://example.com").
Proof.
  destruct (handler_frame
              (Scenarios.viewerRequest
                 (Some {[ "accept" := Scenarios.entry Scenarios.browserAccept;
                          "origin" := Scenarios.entry "https://example.com" ]}) ∅))
    as (_ & _ & _ & _ & H & _).
  rewrite (H "origin"); [reflexivity|discriminate].
Defined.

(** X3. After the viewer-request function the Accept value is one of four:
    absent, empty, [image/webp] or [image/jpg]. An Accept header with an
    empty value is not normalised: the request is returned as it is, and the
    empty value (like the absent header) comes from such requests only. *)
Theorem accept_outcomes (r : Request) :
  (acceptOf r = Some "" -> handler r = r) /\
  (acceptOf (handler r) = None \/ acceptOf (handler r) = Some "" \/
   acceptOf (handler r) = Some "image/webp" \/ acceptOf (handler r) = Some "image/jpg") /\
  (acceptOf (handler r) = Some "" <-> acceptOf r = Some "") /\
  (acceptOf (handler r) = None <-> acceptOf r = None).
Proof.
  assert (N : acceptOf (handler r) = (fun e => value (normalizeEntry e)) <$> (headersOf r !! "accept")).
  { rewrite acceptOf_lookup, handler_lookup. cbn.
    destruct (headersOf r !! "accept"); reflexivity. }
  rewrite N, acceptOf_lookup. split; [|split; [|split]].
  - intros E. rewrite <- acceptOf_lookup in E.
    unfold acceptOf in E. unfold handler.
    destruct (headers r) as [hs|]; [|reflexivity]. cbn in E.
    destruct (hs !! "accept") as [e|]; [|reflexivity]. cbn in E.
    injection E as ->. reflexivity.
  - destruct (headersOf r !! "accept") as [e|]; cbn; [|left; reflexivity].
    unfold normalizeEntry. destruct (Str.truthy (value e)) eqn:T; cbn.
    + destruct (Str.includes "image/webp" (value e)); auto.
    + destruct (value e); [auto|discriminate T].
  - destruct (headersOf r !! "accept") as [e|]; cbn; [|split; intros; discriminate].
    unfold normalizeEntry. destruct (Str.truthy (value e)) eqn:T; cbn; [|tauto].
    destruct (value e) eqn:V; [discriminate T|].
    destruct (Str.includes "image/webp" _); split; intros; discriminate.
  - destruct (headersOf r !! "accept"); cbn; [split; intros; discriminate|tauto].
Qed.

Lemma accept_outcomes_witness :
  handler (Scenarios.viewerRequest (Some {[ "accept" := Scenarios.entry "" ]}) ∅)
  = Scenarios.viewerRequest (Some {[ "accept" := Scenarios.entry "" ]}) ∅.
Proof.
  apply (accept_outcomes
           (Scenarios.viewerRequest (Some {[ "accept" := Scenarios.entry "" ]}) ∅)).
  reflexivity.
Defined.

(** X4. Two viewer requests with the same method, path, query string and
    [origin] header, whose Accept values are not empty and agree on whether
    [image/webp] occurs in them, get the same cache key and send the same
    request to the origin, whatever else their Accept values and their
    other headers hold. *)
Theorem accept_variants_share_key (props : BackEndProps) (r1 r2 : Request)
    (v1 v2 : string) :
  method r1 = method r2 -> uri r1 = uri r2 -> querystring r1 = querystring r2 ->
  headersOf r1 !! "origin" = headersOf r2 !! "origin" ->
  acceptOf r1 = Some v1 -> acceptOf r2 = Some v2 -> v1 <> "" -> v2 <> "" ->
  (Str.Substring "image/webp" v1 <-> Str.Substring "image/webp" v2) ->
  edgeCacheKey (distribution props) r1 = edgeCacheKey (distribution props) r2 /\
  edgeOriginRequest (distribution props) r1 = edgeOriginRequest (distribution props) r2.
Proof.
  intros Hm Hu Hq Ho A1 A2 N1 N2 W.
  apply edge_agree; try assumption.
  intros k Hk. rewrite !handler_lookup.
  apply elem_of_cons in Hk as [->|Hk]; [exact Ho|].
  apply elem_of_cons in Hk as [->|Hk]; [|apply elem_of_nil in Hk; destruct Hk].
  cbn. rewrite acceptOf_lookup in A1, A2.
  destruct (headersOf r1 !! "accept") as [e1|]; [|discriminate A1].
  destruct (headersOf r2 !! "accept") as [e2|]; [|discriminate A2].
  cbn in *. injection A1 as <-. injection A2 as <-.
  apply truthy_nonempty in N1, N2. unfold normalizeEntry. rewrite N1, N2.
  rewrite <- !includes_Substring in W.
  destruct (Str.includes "image/webp" (value e1)), (Str.includes "image/webp" (value e2));
    try reflexivity; exfalso; destruct W as [W1 W2];
    [specialize (W1 eq_refl)|specialize (W2 eq_refl)]; discriminate.
Qed.

Lemma accept_variants_share_key_witness :
  edgeCacheKey (distribution Scenarios.plainDeployment)
    (Scenarios.viewerRequest
       (Some {[ "accept" := Scenarios.entry Scenarios.browserAccept;
                "user-agent" := Scenarios.entry "browser" ]}) ∅)
  = edgeCacheKey (distribution Scenarios.plainDeployment)
      (Scenarios.viewerRequest (Some {[ "accept" := Scenarios.entry "image/webp" ]}) ∅).
Proof.
  apply (accept_variants_share_key Scenarios.plainDeployment _ _
           Scenarios.browserAccept "image/webp");
    try reflexivity; try discriminate.
  split; intros _.
  - exists "", "". reflexivity.
  - exists "text/html,image/avif,", ",image/apng,*/*;q=0.8". reflexivity.
Defined.

(** X5. Headers other than [origin] and [accept] reach neither the cache
    key nor the origin: two viewer requests with the same method, path,
    query string, [origin] and [accept] entries get the same cache key and
    send the same request to the origin. *)
Theorem other_headers_ignored (props : BackEndProps) (r1 r2 : Request) :
  method r1 = method r2 -> uri r1 = uri r2 -> querystring r1 = querystring r2 ->
  (forall k, k ∈ ["origin"; "accept"] -> headersOf r1 !! k = headersOf r2 !! k) ->
  edgeCacheKey (distribution props) r1 = edgeCacheKey (distribution props) r2 /\
  edgeOriginRequest (distribution props) r1 = edgeOriginRequest (distribution props) r2.
Proof.
  intros Hm Hu Hq Hh. apply edge_agree; try assumption.
  intros k Hk. rewrite !handler_lookup.
  case_bool_decide as K.
  - rewrite (Hh "accept"); [reflexivity|]. set_solver.
  - apply Hh, Hk.
Qed.

Lemma other_headers_ignored_witness :
  edgeOriginRequest (distribution Scenarios.customDeployment)
    (Scenarios.viewerRequest
       (Some {[ "authorization" := Scenarios.entry "Bearer token";
                "cookie" := Scenarios.entry "session=1" ]}) ∅)
  = edgeOriginRequest (distribution Scenarios.customDeployment)
      (Scenarios.viewerRequest None ∅).
Proof.
  apply (other_headers_ignored Scenarios.customDeployment); try reflexivity.
  intros k Hk.
  apply elem_of_cons in Hk as [->|Hk]; [reflexivity|].
  apply elem_of_cons in Hk as [->|Hk]; [reflexivity|].
  apply elem_of_nil in Hk. destruct Hk.
Defined.

(** X6. The distribution sets an error caching TTL, of ten minutes, for the
    statuses 500 to 504 and for no other: every other origin error, the
    handler's 400 and 404 among them, has no entry in [errorResponses]. *)
Theorem errorTtl_only_5xx (props : BackEndProps) (status : Z) :
  errorTtl (distribution props) status =
    if bool_decide (500 <= status <= 504) then Some (Duration_minutes 10) else None.
Proof.
  unfold errorTtl.
  cbn [distribution distributionProps cloudFrontDistributionProps errorResponses
       errorTtlIn httpStatus ttl].
  case_bool_decide as R.
  - assert (C : status = 500 \/ status = 501 \/ status = 502 \/ status = 503 \/ status = 504)
      by lia.
    destruct C as [->|[->|[->|[->| ->]]]]; reflexivity.
  - repeat match goal with
           | |- context [Z.eqb ?a status] =>
               destruct (Z.eqb_spec a status); [exfalso; lia|]
           end.
    reflexivity.
Qed.

End EdgeExtras.

(** ** The constructor, the function's role and its environment *)

Module IamFacts.

Import BackEnd StrFacts.

Lemma glob_star (p s : string) :
  glob (String "*" p) s =
    glob p s || match s with
                | EmptyString => false
                | String _ s' => glob (String "*" p) s'
                end.
Proof. destruct s; reflexivity. Qed.

Lemma glob_char (c d : ascii) (p s : string) :
  Ascii.eqb c "*" = false ->
  glob (String c p) (String d s) = (Ascii.eqb c "?" || Ascii.eqb c d) && glob p s.
Proof. intros H. cbn [glob]. rewrite H. reflexivity. Qed.

(** [*] alone matches every string. *)
Lemma glob_any (s : string) : glob "*" s = true.
Proof.
  induction s as [|c s IH]; [reflexivity|].
  rewrite glob_star, IH. apply orb_true_r.
Qed.

(** A pattern matches what it matches after a common prefix, the prefix
    read as a pattern. *)
Lemma glob_prefix (l q x : string) :
  glob q x = true -> glob (l +:+ q) (l +:+ x) = true.
Proof.
  intros H. induction l as [|c l IH]; [exact H|].
  rewrite !append_cons.
  destruct (Ascii.eqb c "*") eqn:E.
  - apply Ascii.eqb_eq in E. subst c.
    rewrite glob_star. apply orb_true_iff. right.
    rewrite glob_star, IH. reflexivity.
  - rewrite (glob_char c c _ _ E), Ascii.eqb_refl, orb_true_r, IH. reflexivity.
Qed.

Lemma glob_refl (p : string) : glob p p = true.
Proof.
  rewrite <- (append_nil_r p). apply glob_prefix. reflexivity.
Qed.

Lemma formatArn_app (stack : StackEnv) (service resource n1 n2 : string) :
  formatArn stack service resource (n1 +:+ n2)
  = formatArn stack service resource n1 +:+ n2.
Proof. unfold formatArn. rewrite !append_assoc. reflexivity. Qed.

(** Membership in a list of literals, by evaluation. *)
Ltac decide_members :=
  repeat match goal with
         | |- context [bool_decide (?x ∈ ?l)] =>
             let b := eval vm_compute in (bool_decide (x ∈ l)) in
             change (bool_decide (x ∈ l)) with b
         end.

Lemma granted_GetObject (stack : StackEnv) (sp : SolutionProps) (r : string) :
  granted (imageHandlerLambdaFunctionRolePolicy stack sp) "s3:GetObject" r =
    existsb (fun p => glob p r) (createSourceBucketsResource sp (Some "/*"))
    || glob (fallbackImageArn sp) r.
Proof.
  unfold granted, grants, imageHandlerLambdaFunctionRolePolicy.
  cbn [existsb actions resources]. decide_members.
  cbn [andb orb]. rewrite !orb_false_r. reflexivity.
Qed.

End IamFacts.

Module ConstructExtras.

Import BackEnd StrFacts IamFacts.



(** X8. The role holds two policies, the caller's [secretsManagerPolicy]
    and the inline policy, and may do what one of them grants. The inline
    policy grants no action outside the seven it lists; on object storage
    it grants [s3:GetObject] on the source bucket resources and on the
    fallback image, and [s3:ListBucket] on the source buckets. So any other
    action on object storage, writing and deleting among them, is open to
    the role only as far as the caller's policy grants it. *)
Theorem role_least_privilege (stack : StackEnv) (sp : SolutionProps)
    (secretsManagerPolicy : list PolicyStatement) (r : string) :
  let role := imageHandlerLambdaFunctionRole stack sp secretsManagerPolicy in
  let policy := imageHandlerLambdaFunctionRolePolicy stack sp in
  (forall a, roleGranted role a r = granted secretsManagerPolicy a r || granted policy a r) /\
  (forall a, granted policy a r = true ->
     a ∈ ["logs:CreateLogGroup"; "logs:CreateLogStream"; "logs:PutLogEvents";
          "s3:GetObject"; "s3:ListBucket";
          "rekognition:DetectFaces"; "rekognition:DetectModerationLabels"]) /\
  granted policy "s3:GetObject" r =
    existsb (fun p => glob p r) (createSourceBucketsResource sp (Some "/*"))
    || glob (fallbackImageArn sp) r /\
  granted policy "s3:ListBucket" r =
    existsb (fun p => glob p r) (createSourceBucketsResource sp None) /\
  (forall a, Str.startsWith "s3:" a = true -> a <> "s3:GetObject" -> a <> "s3:ListBucket" ->
     roleGranted role a r = granted secretsManagerPolicy a r).
Proof.
  cbn zeta.
  assert (R : forall a,
             roleGranted (imageHandlerLambdaFunctionRole stack sp secretsManagerPolicy) a r
             = granted secretsManagerPolicy a r
               || granted (imageHandlerLambdaFunctionRolePolicy stack sp) a r).
  { intros a. unfold roleGranted, imageHandlerLambdaFunctionRole. cbn [existsb].
    rewrite orb_false_r. reflexivity. }
  assert (A : forall a, granted (imageHandlerLambdaFunctionRolePolicy stack sp) a r = true ->
     a ∈ ["logs:CreateLogGroup"; "logs:CreateLogStream"; "logs:PutLogEvents";
          "s3:GetObject"; "s3:ListBucket";
          "rekognition:DetectFaces"; "rekognition:DetectModerationLabels"]).
  { intros a H. unfold granted, imageHandlerLambdaFunctionRolePolicy, grants in H.
    cbn [existsb actions] in H.
    repeat (apply orb_true_iff in H as [H|H]); try discriminate H;
      apply andb_true_iff in H as [H _]; apply bool_decide_eq_true in H;
      rewrite !elem_of_cons, elem_of_nil in H; rewrite !elem_of_cons; tauto. }
  split; [exact R|]. split; [exact A|]. split; [apply granted_GetObject|]. split.
  - unfold granted, grants, imageHandlerLambdaFunctionRolePolicy.
    cbn [existsb actions resources]. decide_members.
    cbn [andb orb]. rewrite !orb_false_r. reflexivity.
  - intros a S N1 N2. rewrite R.
    destruct (granted (imageHandlerLambdaFunctionRolePolicy stack sp) a r) eqn:G;
      [|apply orb_false_r].
    apply A in G.
    repeat (apply elem_of_cons in G as [->|G]; [first [discriminate S|congruence]|]).
    apply elem_of_nil in G. destruct G.
Qed.

Lemma role_least_privilege_witness :
  let secrets := [ {| actions := ["secretsmanager:GetSecretValue"];
                      resources := ["arn:aws:secretsmanager:us-east-1:111122223333:secret:key-*"] |} ] in
  roleGranted (imageHandlerLambdaFunctionRole Scenarios.stack Scenarios.solution secrets)
    "s3:PutObject" "arn:aws:s3:::source-bucket/test.jpg" = false /\
  roleGranted (imageHandlerLambdaFunctionRole Scenarios.stack Scenarios.solution secrets)
    "s3:DeleteObject" "arn:aws:s3:::source-bucket/test.jpg" = false.
Proof.
  cbn zeta. split.
  - rewrite (proj2 (proj2 (proj2 (proj2
               (role_least_privilege Scenarios.stack Scenarios.solution _
                  "arn:aws:s3:::source-bucket/test.jpg")))) "s3:PutObject");
      [reflexivity|reflexivity|discriminate|discriminate].
  - rewrite (proj2 (proj2 (proj2 (proj2
               (role_least_privilege Scenarios.stack Scenarios.solution _
                  "arn:aws:s3:::source-bucket/test.jpg")))) "s3:DeleteObject");
      [reflexivity|reflexivity|discriminate|discriminate].
Defined.

(** X9. The fallback image the function finds in its environment
    ([DEFAULT_FALLBACK_IMAGE_BUCKET], [DEFAULT_FALLBACK_IMAGE_KEY]) is the
    object the role's policy lets it read: the two are built from the same
    two properties. *)
Theorem fallback_image_readable (stack : StackEnv) (sp : SolutionProps) :
  exists b k,
    getEnv (environment sp) "DEFAULT_FALLBACK_IMAGE_BUCKET" = Some b /\
    getEnv (environment sp) "DEFAULT_FALLBACK_IMAGE_KEY" = Some k /\
    granted (imageHandlerLambdaFunctionRolePolicy stack sp) "s3:GetObject"
      ("arn:aws:s3:::" +:+ b +:+ "/" +:+ k) = true.
Proof.
  exists (fallbackImageS3Bucket sp), (fallbackImageS3KeyBucket sp).
  split; [reflexivity|]. split; [reflexivity|].
  rewrite granted_GetObject. apply orb_true_iff. right. apply glob_refl.
Qed.

(** X10. The role may create the function's own log group
    ([/aws/lambda/] and the function's name), create streams in it and put
    events on them, whatever the function is called. *)
Theorem own_logs_writable (stack : StackEnv) (sp : SolutionProps)
    (functionName stream : string) :
  let policy := imageHandlerLambdaFunctionRolePolicy stack sp in
  let group := formatArn stack "logs" "log-group" (logGroupName functionName) in
  granted policy "logs:CreateLogGroup" group = true /\
  granted policy "logs:CreateLogStream" (group +:+ ":log-stream:" +:+ stream) = true /\
  granted policy "logs:PutLogEvents" (group +:+ ":log-stream:" +:+ stream) = true.
Proof.
  cbn zeta.
  assert (G : forall suffix,
            glob (formatArn stack "logs" "log-group" "/aws/lambda/*")
                 (formatArn stack "logs" "log-group" (logGroupName functionName) +:+ suffix)
            = true).
  { intros suffix. unfold logGroupName.
    change "/aws/lambda/*" with ("/aws/lambda/" +:+ "*").
    rewrite !formatArn_app, append_assoc.
    apply glob_prefix, glob_any. }
  unfold granted, grants, imageHandlerLambdaFunctionRolePolicy.
  cbn [existsb actions resources]. decide_members. cbn [andb].
  rewrite (G (":log-stream:" +:+ stream)).
  pose proof (G "") as G0. rewrite append_nil_r in G0. rewrite G0.
  repeat split.
Qed.

End ConstructExtras.

(** ** What the cache key holds *)

Module CacheKeyExtras.

Import BackEnd StrFacts BackEndFacts EdgeFacts.

Lemma restrict_eq_iff (b : AllowBehavior) (m1 m2 : gmap string Entry) :
  restrict b m1 = restrict b m2 <-> forall k, allows b k = true -> m1 !! k = m2 !! k.
Proof.
  split; [|apply restrict_agree].
  intros E k A. apply (f_equal (fun m => m !! k)) in E.
  rewrite !restrict_lookup, A in E. exact E.
Qed.

Lemma listed_headers (P : string -> Prop) :
  (forall k, k ∈ ["origin"; "accept"] -> P k) <-> P "origin" /\ P "accept".
Proof.
  split.
  - intros H. split; apply H; rewrite !elem_of_cons; tauto.
  - intros [Ho Ha] k Hk. rewrite !elem_of_cons, elem_of_nil in Hk.
    destruct Hk as [->|[->|[]]]; assumption.
Qed.

Lemma handler_listed (r1 r2 : Request) :
  (forall k, k ∈ ["origin"; "accept"] ->
     headersOf (handler r1) !! k = headersOf (handler r2) !! k) <->
  headersOf r1 !! "origin" = headersOf r2 !! "origin" /\
  normalizeEntry <$> (headersOf r1 !! "accept") = normalizeEntry <$> (headersOf r2 !! "accept").
Proof.
  rewrite (listed_headers
             (fun k => headersOf (handler r1) !! k = headersOf (handler r2) !! k)).
  rewrite !handler_lookup. reflexivity.
Qed.

(** X11. Two viewer requests have the same cache key exactly when they have
    the same path, the same values for the five listed query parameters,
    the same [origin] header and the same normalised Accept entry: the key
    separates requests that differ in any of these, so a response cached for
    one edit is never served for another. *)
Theorem cacheKey_characterised (props : BackEndProps) (r1 r2 : Request) :
  edgeCacheKey (distribution props) r1 = edgeCacheKey (distribution props) r2 <->
  uri r1 = uri r2 /\
  (forall k, k ∈ queryStringParameters -> querystring r1 !! k = querystring r2 !! k) /\
  headersOf r1 !! "origin" = headersOf r2 !! "origin" /\
  normalizeEntry <$> (headersOf r1 !! "accept") = normalizeEntry <$> (headersOf r2 !! "accept").
Proof.
  unfold edgeCacheKey, runViewerRequest, cacheKey.
  cbn [distribution distributionProps cloudFrontDistributionProps defaultBehavior
       functionAssociations fold_left eventType function bo_cachePolicy
       cachePolicy cp_headerBehavior cp_queryStringBehavior].
  rewrite !handler_uri, !handler_querystring, <- handler_listed.
  split.
  - intros E. injection E as Eu Eh Eq. split; [exact Eu|]. split.
    + intros k Hk. apply (proj1 (restrict_eq_iff _ _ _) Eq), allows_allowList, Hk.
    + intros k Hk. apply (proj1 (restrict_eq_iff _ _ _) Eh), allows_allowList, Hk.
  - intros (Eu & Eq & Eh). f_equal; [exact Eu| |].
    + apply restrict_agree. intros k A. apply Eh, allows_allowList, A.
    + apply restrict_agree. intros k A. apply Eq, allows_allowList, A.
Qed.

Lemma cacheKey_characterised_witness :
  edgeCacheKey (distribution Scenarios.plainDeployment)
    (Scenarios.viewerRequest None {[ "edits" := Scenarios.entry "{grayscale}" ]})
  <> edgeCacheKey (distribution Scenarios.plainDeployment)
       (Scenarios.viewerRequest None {[ "edits" := Scenarios.entry "{flip}" ]}).
Proof.
  intros E.
  apply (cacheKey_characterised Scenarios.plainDeployment) in E as (_ & Q & _).
  specialize (Q "edits"). unfold queryStringParameters in Q.
  rewrite !elem_of_cons in Q. discriminate Q. tauto.
Defined.

(** Two allow lists with the same names allow the same names. *)
Ltac same_names A :=
  unfold queryStringParameters in *;
  apply allows_allowList; apply allows_allowList in A;
  rewrite ?elem_of_app in *; rewrite ?elem_of_cons, ?elem_of_nil in *; tauto.

(** X12. The request sent to the origin holds the method and what the cache
    key holds, no more: two viewer requests send the same request to the
    origin exactly when they have the same method and the same cache key, so
    nothing the handler can see of a GET request is missing from the key
    under which its response is cached. *)
Theorem originRequest_is_cacheKey (props : BackEndProps) (r1 r2 : Request) :
  edgeOriginRequest (distribution props) r1 = edgeOriginRequest (distribution props) r2 <->
  method r1 = method r2 /\
  edgeCacheKey (distribution props) r1 = edgeCacheKey (distribution props) r2.
Proof.
  unfold edgeOriginRequest, edgeCacheKey, runViewerRequest, cacheKey, originRequestOf.
  cbn [distribution distributionProps cloudFrontDistributionProps defaultBehavior
       functionAssociations fold_left eventType function bo_cachePolicy
       bo_originRequestPolicy cachePolicy originRequestPolicy cp_headerBehavior
       cp_queryStringBehavior orp_headerBehavior orp_queryStringBehavior].
  rewrite !handler_uri, !handler_method, !handler_querystring.
  split.
  - intros E. injection E as Em Eu Eh Eq. split; [exact Em|].
    f_equal; [exact Eu| |]; apply restrict_agree; intros k A.
    + apply (proj1 (restrict_eq_iff _ _ _) Eh). same_names A.
    + apply (proj1 (restrict_eq_iff _ _ _) Eq). same_names A.
  - intros [Em E]. injection E as Eu Eh Eq.
    f_equal; [exact Em|exact Eu| |]; apply restrict_agree; intros k A.
    + apply (proj1 (restrict_eq_iff _ _ _) Eh). same_names A.
    + apply (proj1 (restrict_eq_iff _ _ _) Eq). same_names A.
Qed.

Lemma originRequest_is_cacheKey_witness :
  edgeOriginRequest (distribution Scenarios.plainDeployment)
    (Scenarios.viewerRequest (Some {[ "accept" := Scenarios.entry Scenarios.browserAccept ]}) ∅)
  = edgeOriginRequest (distribution Scenarios.plainDeployment)
      (Scenarios.viewerRequest (Some {[ "accept" := Scenarios.entry "image/webp" ]}) ∅).
Proof.
  apply (originRequest_is_cacheKey Scenarios.plainDeployment).
  split; reflexivity.
Defined.

End CacheKeyExtras.
